(** * VFS automatic mounts (lib/vfscore/automount.c)

    A shallow embedding of the boot-time automount step of vfscore and the
    properties of its fstab entry parser, its root filesystem resolver and
    its two-phase orchestrator.

    Layout of the development:
    - machine integers and the C strings the code works on;
    - the libc routines the code calls ([strchr], [strncmp], [strtol]);
    - a state-and-error monad: the state is the fstab storage plus the
      trace of calls into external collaborators, the errors are a failed
      [UK_ASSERT] and an access outside any object;
    - the functions of automount.c, one definition each, same names;
    - the theorems. *)

From Stdlib Require Import ZArith Lia Ascii String.
From stdpp Require Import base list strings.

Local Open Scope Z_scope.

(** ** Machine integers (LP64: [int] is 32 bits, [long] is 64 bits) *)

Definition INT_BITS : Z := 32.
Definition LONG_BITS : Z := 64.
Definition LONG_MAX : Z := 2 ^ (LONG_BITS - 1) - 1.
Definition LONG_MIN : Z := - 2 ^ (LONG_BITS - 1).

(** A value stored in an [int]: two's complement wrap-around. *)
Definition to_int (z : Z) : Z :=
  (z + 2 ^ (INT_BITS - 1)) mod 2 ^ INT_BITS - 2 ^ (INT_BITS - 1).

(** Conversion to [unsigned long] / [size_t]: reduction modulo 2^64. *)
Definition to_ulong (z : Z) : Z := z mod 2 ^ LONG_BITS.

(** ** Characters, buffers, pointers *)

Definition NUL : ascii := Ascii.zero.

(** [#define LIBVFSCORE_FSTAB_VOLUME_ARGS_SEP ':'] *)
Definition LIBVFSCORE_FSTAB_VOLUME_ARGS_SEP : ascii := ":"%char.

(** A [char] array holding a C string.  The array has one more byte than
    the list: the closing terminator, which the code never overwrites.
    Bytes inside the list may be [NUL] (the tokenizer puts them there). *)
Abbreviation buf := (list ascii).

(** The objects a [char *] of this file can point into: a string literal
    (read-only, named by its contents) or the array behind
    [vfscore_fstab[i]]. *)
Inductive block : Type :=
| BLit (s : string)
| BEnt (i : nat).

Record ptr : Type := Ptr { p_blk : block; p_off : nat }.

(** A nullable [char *]: [None] is [NULL]. *)
Abbreviation cptr := (option ptr).

Definition lit (s : string) : cptr := Some (Ptr (BLit s) 0).
Definition ptr_inc (p : ptr) : ptr := Ptr (p_blk p) (S (p_off p)).

(** [static char *vfscore_fstab[CONFIG_LIBVFSCORE_FSTAB_SIZE]]: slot [i] is
    [NULL] or points to the first byte of its own array.  Slots past the end
    of the list are [NULL] (static storage is zero-initialised). *)
Abbreviation memory := (list (option buf)).

Definition slot (m : memory) (i : nat) : option buf := mjoin (m !! i).

Definition bytes_of (m : memory) (b : block) : option buf :=
  match b with
  | BLit s => Some (list_ascii_of_string s)
  | BEnt i => slot m i
  end.

(** The bytes of the object [p] points into, when [p] is inside it (the
    terminator included). *)
Definition deref (m : memory) (p : ptr) : option buf :=
  match bytes_of m (p_blk p) with
  | Some b => if decide (p_off p ≤ length b)%nat then Some b else None
  | None => None
  end.

(** The C string that starts a list of bytes: everything before the first
    [NUL]. *)
Fixpoint cstring (l : list ascii) : list ascii :=
  match l with
  | [] => []
  | x :: l' => if decide (x = NUL) then [] else x :: cstring l'
  end.

(** The C string at [p]. *)
Definition cstring_at (m : memory) (p : ptr) : option (list ascii) :=
  match deref m p with
  | Some b => Some (cstring (drop (p_off p) b))
  | None => None
  end.

(** What a callee sees behind a [const char *] argument. *)
Inductive carg : Type :=
| CNull
| CStr (s : string)
| CWild.

Definition resolve (m : memory) (p : cptr) : carg :=
  match p with
  | None => CNull
  | Some q =>
      match cstring_at m q with
      | Some l => CStr (string_of_list_ascii l)
      | None => CWild
      end
  end.

(** ** libc *)

Module Libc.

(** [strchr(s, c)] on the bytes from [s] on; [off] is the offset of [s].
    The terminator is part of the string, so [strchr(s, 0)] finds it. *)
Fixpoint strchr (l : list ascii) (c : ascii) (off : nat) : option nat :=
  match l with
  | [] => if decide (c = NUL) then Some off else None
  | x :: l' =>
      if decide (x = c) then Some off
      else if decide (x = NUL) then None
      else strchr l' c (S off)
  end.

Definition uchar (c : ascii) : Z := Z.of_nat (nat_of_ascii c).

(** [strncmp(s1, s2, n)]: bytes past the end of a list are the terminator. *)
Fixpoint strncmp (s1 s2 : list ascii) (n : nat) : Z :=
  match n with
  | O => 0
  | S n' =>
      let c1 := hd NUL s1 in
      let c2 := hd NUL s2 in
      if decide (c1 = c2) then
        if decide (c1 = NUL) then 0 else strncmp (tl s1) (tl s2) n'
      else uchar c1 - uchar c2
  end.

Definition isspace (c : ascii) : bool :=
  let n := nat_of_ascii c in
  (n =? 32)%nat || ((9 <=? n)%nat && (n <=? 13)%nat).

(** Value of a digit character in bases up to 36. *)
Definition digit_val (c : ascii) : option Z :=
  let n := nat_of_ascii c in
  if ((48 <=? n) && (n <=? 57))%nat then Some (Z.of_nat n - 48)
  else if ((97 <=? n) && (n <=? 122))%nat then Some (Z.of_nat n - 87)
  else if ((65 <=? n) && (n <=? 90))%nat then Some (Z.of_nat n - 55)
  else None.

Definition is_digit_in (base : Z) (c : ascii) : bool :=
  match digit_val c with
  | Some d => d <? base
  | None => false
  end.

Fixpoint skip_space (l : list ascii) : list ascii :=
  match l with
  | c :: l' => if isspace c then skip_space l' else l
  | [] => []
  end.

(** The digit loop: consume digits of [base], stop at the first other
    character. *)
Fixpoint accum (base acc : Z) (l : list ascii) : Z :=
  match l with
  | c :: l' =>
      match digit_val c with
      | Some d => if d <? base then accum base (acc * base + d) l' else acc
      | None => acc
      end
  | [] => acc
  end.

Definition clamp_long (z : Z) : Z := Z.max LONG_MIN (Z.min LONG_MAX z).

(** Modelled from the spec: [strtol] is the C library's (not under src/).
    The flags token is "parsed as an integer honoring a leading 0x/0X prefix
    for hexadecimal and a leading 0 for octal, decimal otherwise (auto
    base-detection)"; the rest is ISO C: leading white space is skipped, one
    optional sign, the longest run of digits of the base is converted, what
    follows is ignored, no digits gives 0, and a value outside [long] is
    clamped to [LONG_MIN] / [LONG_MAX]. *)
Definition strtol (nptr : list ascii) (base : Z) : Z :=
  let s := skip_space nptr in
  let '(neg, s) :=
    match s with
    | "-"%char :: s' => (true, s')
    | "+"%char :: s' => (false, s')
    | _ => (false, s)
    end in
  let '(base, s) :=
    match s with
    | "0"%char :: x :: h :: s' =>
        if (bool_decide (base = 0 ∨ base = 16)
            && bool_decide (x = "x"%char ∨ x = "X"%char)
            && is_digit_in 16 h)%bool
        then (16, h :: s')
        else (if bool_decide (base = 0) then 8 else base, s)
    | "0"%char :: _ => (if bool_decide (base = 0) then 8 else base, s)
    | _ => (if bool_decide (base = 0) then 10 else base, s)
    end in
  let acc := accum base 0 s in
  clamp_long (if neg : bool then - acc else acc).

End Libc.

(** ** External collaborators and the trace of calls into them *)

(** [struct vfscore_volume] *)
Record vfscore_volume : Type := Volume {
  sdev : cptr;   (* Volume source device *)
  path : cptr;   (* Mount point absolute path *)
  drv : cptr;    (* Corresponding filesystem driver name *)
  flags : Z;     (* Mount flags (unsigned long) *)
  opts : cptr    (* Mount options *)
}.

(** One call into a collaborator, with what the callee could read behind
    its pointer arguments at the time of the call, and its status. *)
Inductive event : Type :=
| EvMount (src dir fs : carg) (fl : Z) (data : carg) (rc : Z)
| EvCpioExtract (dir : carg) (base len : Z) (rc : Z)
| EvFindInitrd0 (rc : Z) (vbase len : Z).

(** The collaborators.  Each answer may depend on the calls made so far. *)
Record world : Type := World {
  (* mount(2) *)
  w_mount : list event → carg → carg → carg → Z → carg → Z;
  (* ukcpio_extract() *)
  w_ukcpio_extract : list event → carg → Z → Z → Z;
  (* ukplat_memregion_find_initrd0(): status, and vbase and len of the
     region it reports *)
  w_find_initrd0 : list event → Z * (Z * Z);
  (* what the stack holds where the uninitialised local
     [struct vfscore_volume vv] of vfscore_automount_fstab_volumes() is *)
  w_stack_vv : vfscore_volume
}.

(** The build configuration: the options the preprocessor tests and the
    values the root descriptor is built from.  Not every combination links:
    do_mount_initrd() exists only with CONFIG_LIBUKCPIO and CONFIG_LIBRAMFS,
    and vfscore_mount_initrd_volume() only when, on top of these, the root
    is mounted from the configuration (CONFIG_LIBVFSCORE_AUTOMOUNT_ROOTFS
    without CONFIG_LIBVFSCORE_ROOTFS_EINITRD).  The functions below are
    defined for every combination; the sample builds further down link. *)
Record config : Type := Config {
  CONFIG_LIBUKCPIO : bool;
  CONFIG_LIBRAMFS : bool;
  CONFIG_LIBVFSCORE_AUTOMOUNT_ROOTFS : bool;
  CONFIG_LIBVFSCORE_ROOTFS_EINITRD : bool;
  CONFIG_LIBVFSCORE_FSTAB : bool;
  CONFIG_LIBVFSCORE_FSTAB_SIZE : nat;
  (* [None]: not defined *)
  CONFIG_LIBVFSCORE_ROOTDEV : option string;
  (* [None]: a null pointer *)
  CONFIG_LIBVFSCORE_ROOTFS : option string;
  CONFIG_LIBVFSCORE_ROOTFLAGS : option Z;
  CONFIG_LIBVFSCORE_ROOTOPTS : option string;
  (* addresses of vfscore_einitrd_start and vfscore_einitrd_end *)
  vfscore_einitrd_start : Z;
  vfscore_einitrd_end : Z
}.

(** ** The monad *)

Record state : Type := State {
  vfscore_fstab : memory;
  trace : list event
}.

Inductive res (A : Type) : Type :=
| Ok (a : A)
| AssertFail    (* a UK_ASSERT failed: the image terminates *)
| Fault.        (* an access outside every object *)
Arguments Ok {A} a.
Arguments AssertFail {A}.
Arguments Fault {A}.

Definition M (A : Type) : Type := state → res A * state.

Definition ret {A} (a : A) : M A := fun s => (Ok a, s).

Definition bind {A B} (c : M A) (k : A → M B) : M B := fun s =>
  match c s with
  | (Ok a, s') => k a s'
  | (AssertFail, s') => (AssertFail, s')
  | (Fault, s') => (Fault, s')
  end.

Definition fault {A} : M A := fun s => (Fault, s).

Declare Scope m_scope.
Delimit Scope m_scope with M.
Notation "'let*' x := c 'in' k" := (bind c (fun x => k))
  (at level 10, x pattern, c at level 100, k at level 200) : m_scope.
Notation "c1 ;; c2" := (bind c1 (fun _ => c2))
  (at level 100, c2 at level 200, right associativity) : m_scope.
Local Open Scope m_scope.

(** Modelled from the spec: [UK_ASSERT] is a macro of uk/assert.h (not under
    src/).  A failed check is "a precondition violation (process-terminating
    assertion)". *)
Definition UK_ASSERT (b : bool) : M unit := fun s =>
  if b then (Ok tt, s) else (AssertFail, s).

(** [*p] *)
Definition load (p : ptr) : M ascii := fun s =>
  match deref (vfscore_fstab s) p with
  | Some b => (Ok (nth (p_off p) b NUL), s)
  | None => (Fault, s)
  end.

(** [*p = c], for a byte before the closing terminator of an fstab array *)
Definition store (p : ptr) (c : ascii) : M unit := fun s =>
  match p_blk p with
  | BEnt i =>
      match slot (vfscore_fstab s) i with
      | Some b =>
          if decide (p_off p < length b)%nat then
            (Ok tt, State (<[i := Some (<[p_off p := c]> b)]> (vfscore_fstab s))
                          (trace s))
          else (Fault, s)
      | None => (Fault, s)
      end
  | BLit _ => (Fault, s)
  end.

(** The C string at [p], for a callee that reads it. *)
Definition read_cstring (p : ptr) : M (list ascii) := fun s =>
  match cstring_at (vfscore_fstab s) p with
  | Some l => (Ok l, s)
  | None => (Fault, s)
  end.

Definition strchr (s : ptr) (c : ascii) : M cptr := fun st =>
  match deref (vfscore_fstab st) s with
  | Some b =>
      (Ok (Ptr (p_blk s) <$> Libc.strchr (drop (p_off s) b) c (p_off s)), st)
  | None => (Fault, st)
  end.

Definition strncmp (s1 : cptr) (s2 : string) (n : nat) : M Z :=
  match s1 with
  | Some p =>
      let* l := read_cstring p in
      ret (Libc.strncmp l (list_ascii_of_string s2) n)
  | None => fault
  end.

Definition strtol (nptr : ptr) (base : Z) : M Z :=
  let* l := read_cstring nptr in ret (Libc.strtol l base).

(** [mount(source, target, fstype, flags, data)] *)
Definition mount (w : world) (src dir fs : cptr) (fl : Z) (data : cptr)
  : M Z := fun s =>
  let m := vfscore_fstab s in
  let rc := to_int (w_mount w (trace s) (resolve m src) (resolve m dir)
                            (resolve m fs) fl (resolve m data)) in
  (Ok rc,
   State m (trace s ++ [EvMount (resolve m src) (resolve m dir)
                                (resolve m fs) fl (resolve m data) rc])).

(** [ukcpio_extract(path, base, len)] *)
Definition ukcpio_extract (w : world) (dir : cptr) (base len : Z) : M Z :=
  fun s =>
  let m := vfscore_fstab s in
  let rc := to_int (w_ukcpio_extract w (trace s) (resolve m dir) base len) in
  (Ok rc, State m (trace s ++ [EvCpioExtract (resolve m dir) base len rc])).

(** [ukplat_memregion_find_initrd0(&initrd)]: the status, and [initrd->vbase]
    and [initrd->len] *)
Definition ukplat_memregion_find_initrd0 (w : world) : M (Z * (Z * Z)) :=
  fun s =>
  let '(rc, (vbase, len)) := w_find_initrd0 w (trace s) in
  (Ok (to_int rc, (vbase, to_ulong len)),
   State (vfscore_fstab s)
         (trace s ++ [EvFindInitrd0 (to_int rc) vbase (to_ulong len)])).

(** ** automount.c

    The functions of the file, in its order.  The uk_pr_info, uk_pr_err and
    uk_pr_crit calls only print and are left out; where one stood, a comment
    says so. *)

Section Automount.

Variable c : config.
Variable w : world.

(** The guard [#if CONFIG_LIBUKCPIO && CONFIG_LIBRAMFS]. *)
Definition cpio_and_ramfs : bool := CONFIG_LIBUKCPIO c && CONFIG_LIBRAMFS c.

Definition vfscore_mount_volume (vv : vfscore_volume) : M Z :=
  mount w (sdev vv) (path vv) (drv vv) (flags vv) (opts vv).

(** [pos] is the [char *] that the argument points to; the result is the
    returned pointer together with the new value of [*pos].
    ([UK_ASSERT(pos)] holds: the only caller passes the address of a local.) *)
Definition vfscore_fstab_next_volume_arg (pos : cptr) : M (cptr * cptr) :=
  match pos with
  | None => ret (None, None)
  | Some ipos =>
      let* q := strchr ipos LIBVFSCORE_FSTAB_VOLUME_ARGS_SEP in
      match q with
      | Some p =>
          let* ch := load p in
          if decide (ch ≠ NUL) then
            store p NUL ;;
            ret (Some ipos, Some (ptr_inc p))
          else ret (Some ipos, None)
      | None => ret (Some ipos, None)
      end
  end.

(** [vv] is the contents of [*vv] on entry, the result its contents on
    return.  ([UK_ASSERT(vv)] holds: the only caller passes the address of a
    local.) *)
Definition vfscore_fstab_fetch_volume_args (v : cptr) (vv : vfscore_volume)
  : M vfscore_volume :=
  UK_ASSERT (bool_decide (is_Some v)) ;;
  let pos := v in
  (* sdev, path and drv are mandatory *)
  let* (a, pos) := vfscore_fstab_next_volume_arg pos in
  let vv := Volume a (path vv) (drv vv) (flags vv) (opts vv) in
  UK_ASSERT (bool_decide (is_Some (sdev vv))) ;;
  let* (a, pos) := vfscore_fstab_next_volume_arg pos in
  let vv := Volume (sdev vv) a (drv vv) (flags vv) (opts vv) in
  UK_ASSERT (bool_decide (is_Some (path vv))) ;;
  let* (a, pos) := vfscore_fstab_next_volume_arg pos in
  let vv := Volume (sdev vv) (path vv) a (flags vv) (opts vv) in
  UK_ASSERT (bool_decide (is_Some (drv vv))) ;;
  match pos with
  | None => ret vv
  | Some _ =>
      (* Allow empty flags: "<src_dev>:<mntpoint>:<fsdriver>::<opts>" *)
      let* (fl, pos) := vfscore_fstab_next_volume_arg pos in
      let* n :=
        match fl with
        | Some f =>
            let* ch := load f in
            if decide (ch ≠ NUL) then
              let* n := strtol f 0 in ret (to_ulong n)
            else ret 0
        | None => ret 0
        end in
      let vv := Volume (sdev vv) (path vv) (drv vv) n (opts vv) in
      let* (o, pos) := vfscore_fstab_next_volume_arg pos in
      match o with
      | Some p =>
          let* ch := load p in
          if decide (ch = NUL) then
            ret (Volume (sdev vv) (path vv) (drv vv) (flags vv) None)
          else ret (Volume (sdev vv) (path vv) (drv vv) (flags vv) o)
      | None => ret (Volume (sdev vv) (path vv) (drv vv) (flags vv) o)
      end
  end.

Definition do_mount_initrd (initrd len : Z) (dir : cptr) : M Z :=
  UK_ASSERT (bool_decide (is_Some dir)) ;;
  let* rc := mount w (lit "") dir (lit "ramfs") 0 None in
  if decide (rc ≠ 0) then
    (* uk_pr_crit: Failed to mount ramfs to <path>: <errno> *)
    ret (-1)
  else
    (* uk_pr_info: Extracting initrd @ <base> (<len> bytes) to <path>... *)
    let* rc := ukcpio_extract w dir initrd len in
    if decide (rc ≠ 0) then
      (* uk_pr_crit: Failed to extract cpio archive to <path>: <rc> *)
      ret (-1)
    else ret 0.

(** ([UK_ASSERT(vv)] holds: both callers pass the address of a local.) *)
Definition vfscore_mount_initrd_volume (vv : vfscore_volume) : M Z :=
  let* (rc, (vbase, len)) := ukplat_memregion_find_initrd0 w in
  if decide (rc < 0) then
    (* uk_pr_crit: Could not find an initrd! *)
    ret (-1)
  else do_mount_initrd vbase len (path vv).

(** [#if CONFIG_LIBVFSCORE_ROOTFS_EINITRD] *)
Definition vfscore_automount_rootfs_einitrd : M Z :=
  let initrd := vfscore_einitrd_start c in
  let len := to_ulong (vfscore_einitrd_end c - vfscore_einitrd_start c) in
  do_mount_initrd initrd len (lit "/").

(** [#else /* !CONFIG_LIBVFSCORE_ROOTFS_EINITRD */] *)
Definition vfscore_automount_rootfs_config : M Z :=
  (* Convert to `struct vfscore_volume` *)
  let vv := {|
    sdev := match CONFIG_LIBVFSCORE_ROOTDEV c with
            | Some d => lit d
            | None => lit ""
            end;
    path := lit "/";
    drv := match CONFIG_LIBVFSCORE_ROOTFS c with
           | Some d => lit d
           | None => None
           end;
    flags := match CONFIG_LIBVFSCORE_ROOTFLAGS c with
             | Some f => to_ulong f
             | None => 0
             end;
    opts := match CONFIG_LIBVFSCORE_ROOTOPTS c with
            | Some o => lit o
            | None => lit ""
            end
  |} in
  let* skip :=
    match drv vv with
    | None => ret true
    | Some d => let* ch := load d in ret (bool_decide (ch = NUL))
    end in
  if skip : bool then ret 0
  else
    let* initrd :=
      if cpio_and_ramfs then
        let* r := strncmp (drv vv) "initrd" (String.length "initrd") in
        ret (bool_decide (r = 0))
      else ret false in
    if initrd : bool then vfscore_mount_initrd_volume vv
    else
      let* rc := vfscore_mount_volume vv in
      (* if (unlikely(rc))
           uk_pr_crit: Failed to mount <sdev> (<drv>) at /: <rc> *)
      ret rc.

Definition vfscore_automount_rootfs : M Z :=
  if CONFIG_LIBVFSCORE_AUTOMOUNT_ROOTFS c then
    if CONFIG_LIBVFSCORE_ROOTFS_EINITRD c then vfscore_automount_rootfs_einitrd
    else vfscore_automount_rootfs_config
  else ret 0.

(** One turn of the loop of vfscore_automount_fstab_volumes(), for a slot
    [i] that is set: the status of the mount and the contents of [vv]
    afterwards. *)
Definition fstab_volume (i : nat) (vv : vfscore_volume)
  : M (Z * vfscore_volume) :=
  let* vv := vfscore_fstab_fetch_volume_args (Some (Ptr (BEnt i) 0)) vv in
  let* initrd :=
    if cpio_and_ramfs then
      let* r := strncmp (drv vv) "initrd" (String.length "initrd") in
      ret (bool_decide (r = 0))
    else ret false in
  let* rc :=
    if initrd : bool then vfscore_mount_initrd_volume vv
    else vfscore_mount_volume vv in
  ret (rc, vv).

(** The loop, with [n] the number of slots from [i] to
    [CONFIG_LIBVFSCORE_FSTAB_SIZE]. *)
Fixpoint fstab_volumes_from (n i : nat) (vv : vfscore_volume) : M Z :=
  match n with
  | O => ret 0
  | S n' => fun s =>
      match slot (vfscore_fstab s) i with
      | None => ret 0 s
      | Some _ =>
          (let* (rc, vv) := fstab_volume i vv in
           if decide (rc ≠ 0) then
             (* uk_pr_err: Failed to mount <sdev>: error <rc> *)
             ret rc
           else fstab_volumes_from n' (S i) vv) s
      end
  end.

Definition vfscore_automount_fstab_volumes : M Z :=
  if CONFIG_LIBVFSCORE_FSTAB c then
    fstab_volumes_from (CONFIG_LIBVFSCORE_FSTAB_SIZE c) 0 (w_stack_vv w)
  else ret 0.

Definition vfscore_automount : M Z :=
  let* rc := vfscore_automount_rootfs in
  if decide (rc < 0) then ret rc
  else vfscore_automount_fstab_volumes.

End Automount.

(** ** The fields of an entry

    [fields] follows the documented format
    ["<src_dev>:<mntpoint>:<fsdriver>[:<flags>:<opts>]"]: the colon-delimited
    fields of an entry.  [parse_fields] is the parser of the code, written
    on these fields instead of on the bytes; it is what the in-place
    tokenizer is compared with.  The descriptor that the format itself
    prescribes is [format_fields], further down. *)

Abbreviation SEP := LIBVFSCORE_FSTAB_VOLUME_ARGS_SEP.

(** The colon-delimited fields of a string; there is always at least one. *)
Fixpoint fields (l : list ascii) : list (list ascii) :=
  match l with
  | [] => [[]]
  | x :: l' =>
      if decide (x = SEP) then [] :: fields l'
      else match fields l' with
           | t :: ts => (x :: t) :: ts
           | [] => [[x]]
           end
  end.

(** The fields of the entry held in an array. *)
Definition entry_fields (b : buf) : list (list ascii) := fields (cstring b).

(** A run of bytes with neither a separator nor a terminator in it. *)
Definition plain (t : list ascii) : Prop :=
  Forall (λ ch, ch ≠ SEP ∧ ch ≠ NUL) t.

(** The array after the first [n] separators of its string became
    terminators. *)
Fixpoint nul_seps (n : nat) (l : list ascii) : list ascii :=
  match n, l with
  | S n', x :: l' =>
      if decide (x = SEP) then NUL :: nul_seps n' l'
      else if decide (x = NUL) then l
      else x :: nul_seps n l'
  | _, _ => l
  end.

(** What vfscore_fstab_fetch_volume_args() leaves in the descriptor, as a
    function of the fields of entry [i] and of the contents [vv] that the
    descriptor had before the call.  With exactly three fields the function
    returns before it assigns the flags and the options, so these stay those
    of [vv]; with a fourth field the flags are 0 for an empty field and its
    number otherwise, and the options are the fifth field when it is there
    and not empty.  With fewer than three fields an assertion fails. *)
Definition parse_fields (i : nat) (vv : vfscore_volume)
    (fs : list (list ascii)) : res vfscore_volume :=
  let at_ (off : nat) : cptr := Some (Ptr (BEnt i) off) in
  match fs with
  | a :: p :: d :: rest =>
      let o1 := S (length a) in
      let o2 := (o1 + S (length p))%nat in
      match rest with
      | [] => Ok (Volume (at_ O) (at_ o1) (at_ o2) (flags vv) (opts vv))
      | f :: rest' =>
          let o3 := (o2 + S (length d))%nat in
          let o4 := (o3 + S (length f))%nat in
          Ok (Volume (at_ O) (at_ o1) (at_ o2)
                (match f with
                 | [] => 0
                 | _ => to_ulong (Libc.strtol f 0)
                 end)
                (match rest' with
                 | (_ :: _) :: _ => at_ o4
                 | _ => None
                 end))
      end
  | _ => AssertFail
  end.

(** Every byte keeps its value, or was a separator and is now a
    terminator. *)
Definition byte_step (x y : ascii) : Prop := y = x ∨ (x = SEP ∧ y = NUL).

Definition mem_step (m m' : memory) : Prop :=
  Forall2 (option_Forall2 (Forall2 byte_step)) m m'.

(** A computation that leaves the fstab storage as it finds it. *)
Definition mem_const {A} (c : M A) : Prop :=
  ∀ s, vfscore_fstab (c s).2 = vfscore_fstab s.

(** ** Runs of the loop *)

(** The first [k] turns of the loop from slot [i] on, each taken once and in
    table order, every mount returning 0: the contents of [vv] and the state
    they end in. *)
Fixpoint turns (c : config) (w : world) (k i : nat) (vv : vfscore_volume)
    (s : state) : option (vfscore_volume * state) :=
  match k with
  | O => Some (vv, s)
  | S k' =>
      match fstab_volume c w i vv s with
      | (Ok (rc, vv'), s') =>
          if decide (rc = 0) then turns c w k' (S i) vv' s' else None
      | _ => None
      end
  end.

(** The calls to mount(2) in a trace. *)
Definition is_mount (e : event) : bool :=
  match e with
  | EvMount _ _ _ _ _ _ => true
  | _ => false
  end.

Definition mount_calls (t : list event) : list event := filter is_mount t.

(** ** Sample builds, collaborators and tables *)

Definition entry (s : string) : option buf := Some (list_ascii_of_string s).

(** A table as the parameter library leaves it: the given entries, nothing
    mounted yet. *)
Definition boot (tbl : list string) : state := State (entry <$> tbl) [].

(** Root on a configured device, fstab of four slots, initrd support
    built in. *)
Definition cfg_ext4 : config := {|
  CONFIG_LIBUKCPIO := true;
  CONFIG_LIBRAMFS := true;
  CONFIG_LIBVFSCORE_AUTOMOUNT_ROOTFS := true;
  CONFIG_LIBVFSCORE_ROOTFS_EINITRD := false;
  CONFIG_LIBVFSCORE_FSTAB := true;
  CONFIG_LIBVFSCORE_FSTAB_SIZE := 4;
  CONFIG_LIBVFSCORE_ROOTDEV := Some "vda"%string;
  CONFIG_LIBVFSCORE_ROOTFS := Some "ext4"%string;
  CONFIG_LIBVFSCORE_ROOTFLAGS := None;
  CONFIG_LIBVFSCORE_ROOTOPTS := None;
  vfscore_einitrd_start := 0;
  vfscore_einitrd_end := 0
|}.

(** The same build with the root driver left empty. *)
Definition cfg_noroot : config := {|
  CONFIG_LIBUKCPIO := true;
  CONFIG_LIBRAMFS := true;
  CONFIG_LIBVFSCORE_AUTOMOUNT_ROOTFS := true;
  CONFIG_LIBVFSCORE_ROOTFS_EINITRD := false;
  CONFIG_LIBVFSCORE_FSTAB := true;
  CONFIG_LIBVFSCORE_FSTAB_SIZE := 4;
  CONFIG_LIBVFSCORE_ROOTDEV := None;
  CONFIG_LIBVFSCORE_ROOTFS := Some ""%string;
  CONFIG_LIBVFSCORE_ROOTFLAGS := None;
  CONFIG_LIBVFSCORE_ROOTOPTS := None;
  vfscore_einitrd_start := 0;
  vfscore_einitrd_end := 0
|}.

(** The same build with root on the initial ramdisk. *)
Definition cfg_initrd : config := {|
  CONFIG_LIBUKCPIO := true;
  CONFIG_LIBRAMFS := true;
  CONFIG_LIBVFSCORE_AUTOMOUNT_ROOTFS := true;
  CONFIG_LIBVFSCORE_ROOTFS_EINITRD := false;
  CONFIG_LIBVFSCORE_FSTAB := true;
  CONFIG_LIBVFSCORE_FSTAB_SIZE := 4;
  CONFIG_LIBVFSCORE_ROOTDEV := None;
  CONFIG_LIBVFSCORE_ROOTFS := Some "initrd"%string;
  CONFIG_LIBVFSCORE_ROOTFLAGS := None;
  CONFIG_LIBVFSCORE_ROOTOPTS := None;
  vfscore_einitrd_start := 0;
  vfscore_einitrd_end := 0
|}.

(** What the stack happens to hold: nothing useful. *)
Definition vv_junk : vfscore_volume := Volume None None None 0 None.

(** Every mount and extraction succeeds; the platform reports no initrd. *)
Definition world_ok : world := {|
  w_mount := λ _ _ _ _ _ _, 0;
  w_ukcpio_extract := λ _ _ _ _, 0;
  w_find_initrd0 := λ _, (-1, (0, 0));
  w_stack_vv := vv_junk
|}.

(** mount(2) answers 1 for "/" and 0 for every other mount point. *)
Definition world_root_1 : world := {|
  w_mount := λ _ _ dir _ _ _,
    match dir with
    | CStr "/" => 1
    | _ => 0
    end;
  w_ukcpio_extract := λ _ _ _ _, 0;
  w_find_initrd0 := λ _, (-1, (0, 0));
  w_stack_vv := vv_junk
|}.

(** mount(2) answers -1 for the mount point "/b" and 0 for every other. *)
Definition world_b_fails : world := {|
  w_mount := λ _ _ dir _ _ _,
    match dir with
    | CStr "/b" => -1
    | _ => 0
    end;
  w_ukcpio_extract := λ _ _ _ _, 0;
  w_find_initrd0 := λ _, (-1, (0, 0));
  w_stack_vv := vv_junk
|}.

(** ** Vocabulary for the properties of the parser and of the resolver *)

(** The offset of field [k] in an entry whose fields are [fs]: the lengths
    of the fields before it, and one separator each. *)
Fixpoint field_offset (fs : list (list ascii)) (k : nat) : nat :=
  match k, fs with
  | S k', f :: fs' => (S (length f) + field_offset fs' k')%nat
  | _, _ => O
  end.

(** The descriptor that the documented format prescribes for entry [i] with
    fields [fs]: source, mount point and driver are mandatory; the flags are
    0 when the fourth field is absent or empty, and its number otherwise; the
    options are absent when the fifth field is absent or empty. *)
Definition format_fields (i : nat) (fs : list (list ascii))
  : res vfscore_volume :=
  let at_ (k : nat) : cptr := Some (Ptr (BEnt i) (field_offset fs k)) in
  match fs with
  | _ :: _ :: _ :: rest =>
      Ok (Volume (at_ 0%nat) (at_ 1%nat) (at_ 2%nat)
            (match rest with
             | ((_ :: _) as f) :: _ => to_ulong (Libc.strtol f 0)
             | _ => 0
             end)
            (match rest with
             | _ :: (_ :: _) :: _ => at_ 4%nat
             | _ => None
             end))
  | _ => AssertFail
  end.

(** A driver name that sends the mount to the initial ramdisk: its first six
    characters are "initrd". *)
Definition initrd_driver (l : list ascii) : Prop :=
  take 6 l = list_ascii_of_string "initrd".

(** The calls and the status of one mount of the initial ramdisk at [dir]:
    the lookup alone when it fails; the lookup and a failed mount of a
    ramfs; or the lookup, the mount and the extraction. *)
Definition initrd_dispatch (dir : carg) (evs : list event) (rc : Z) : Prop :=
  ∃ r0 vbase len,
    let find := EvFindInitrd0 r0 vbase len in
    let ramfs := EvMount (CStr "") dir (CStr "ramfs") 0 CNull in
    (r0 < 0 ∧ rc = -1 ∧ evs = [find]) ∨
    (0 ≤ r0 ∧ ∃ rc1, rc1 ≠ 0 ∧ rc = -1 ∧ evs = [find; ramfs rc1]) ∨
    (0 ≤ r0 ∧ ∃ rc2,
       rc = (if decide (rc2 = 0) then 0 else -1) ∧
       evs = [find; ramfs 0; EvCpioExtract dir vbase len rc2]).

(** The calls [evs] and the status [rc] are one dispatch of the entry with
    source [a], mount point [p] and driver [d]: a mount of the initial
    ramdisk at [p] when the build has initrd support and the driver starts
    with "initrd"; otherwise one call to mount(2) with the three fields,
    whose status is the status of the dispatch. *)
Definition dispatched (c : config) (a p d : list ascii) (evs : list event)
    (rc : Z) : Prop :=
  let to_initrd := cpio_and_ramfs c = true ∧ initrd_driver d in
  (to_initrd ∧ initrd_dispatch (CStr (string_of_list_ascii p)) evs rc) ∨
  (¬ to_initrd ∧
   ∃ fl data,
     evs = [EvMount (CStr (string_of_list_ascii a))
                    (CStr (string_of_list_ascii p))
                    (CStr (string_of_list_ascii d)) fl data rc]).

(** What a callee reads behind a string literal. *)
Definition literal (s : string) : carg :=
  CStr (string_of_list_ascii (cstring (list_ascii_of_string s))).

(** The events of a call to do_mount_initrd() that succeeds. *)
Definition initrd_events (dir : carg) (base len : Z) : list event :=
  [EvMount (CStr "") dir (CStr "ramfs") 0 CNull 0;
   EvCpioExtract dir base len 0].

(** Every mount and extraction succeeds; the platform reports an initial
    ramdisk of 64 bytes at 0x1000. *)
Definition world_initrd : world := {|
  w_mount := λ _ _ _ _ _ _, 0;
  w_ukcpio_extract := λ _ _ _ _, 0;
  w_find_initrd0 := λ _, (0, (0x1000, 64));
  w_stack_vv := vv_junk
|}.

(** Root from an initrd embedded in the image, at 0x2000 to 0x2100; no
    fstab. *)
Definition cfg_einitrd : config := {|
  CONFIG_LIBUKCPIO := true;
  CONFIG_LIBRAMFS := true;
  CONFIG_LIBVFSCORE_AUTOMOUNT_ROOTFS := true;
  CONFIG_LIBVFSCORE_ROOTFS_EINITRD := true;
  CONFIG_LIBVFSCORE_FSTAB := false;
  CONFIG_LIBVFSCORE_FSTAB_SIZE := 0;
  CONFIG_LIBVFSCORE_ROOTDEV := None;
  CONFIG_LIBVFSCORE_ROOTFS := Some ""%string;
  CONFIG_LIBVFSCORE_ROOTFLAGS := None;
  CONFIG_LIBVFSCORE_ROOTOPTS := None;
  vfscore_einitrd_start := 0x2000;
  vfscore_einitrd_end := 0x2100
|}.

(** ** Tokenizer lemmas *)

Lemma fields_nonempty l : fields l ≠ [].
Proof.
  destruct l as [|x l]; simpl; [done|].
  case_decide; [done|]. by destruct (fields l).
Qed.

Lemma plain_nil : plain [].
Proof. constructor. Qed.

Lemma plain_cons x t : x ≠ SEP → x ≠ NUL → plain t → plain (x :: t).
Proof. intros ???. by constructor. Qed.

#[local] Hint Resolve plain_nil plain_cons : core.

(** How the first field sits in the array. *)
Lemma entry_fields_inv (cur : buf) :
  match entry_fields cur with
  | [] => False
  | [t] => plain t ∧ ∃ tail, cur = t ++ tail ∧ (tail = [] ∨ ∃ j, tail = NUL :: j)
  | t :: rest =>
      plain t ∧ ∃ cur', cur = t ++ SEP :: cur' ∧ entry_fields cur' = rest
  end.
Proof.
  unfold entry_fields.
  induction cur as [|x cur IH]; simpl.
  - split; [done|]. exists []. eauto.
  - destruct (decide (x = NUL)) as [->|Hn]; simpl.
    + split; [done|]. exists (NUL :: cur). eauto.
    + destruct (decide (x = SEP)) as [->|Hs].
      * pose proof (fields_nonempty (cstring cur)).
        destruct (fields (cstring cur)) as [|t' ts] eqn:E; [done|].
        split; [done|]. exists cur. by rewrite E.
      * destruct (fields (cstring cur)) as [|t [|t' ts]] eqn:E; [done| |].
        -- destruct IH as [Hp (tail & -> & Ht)].
           split; [auto|]. by exists tail.
        -- destruct IH as [Hp (cur' & -> & Hc)].
           split; [auto|]. by exists cur'.
Qed.

Ltac decide_all :=
  repeat (case_decide; simplify_eq; try done).

Lemma strchr_sep t r off :
  plain t → Libc.strchr (t ++ SEP :: r) SEP off = Some (off + length t)%nat.
Proof.
  intros Hp. revert off.
  induction Hp as [|x t [Hs Hn] _ IH]; intros off; simpl.
  - f_equal. lia.
  - decide_all. rewrite IH. f_equal. lia.
Qed.

Lemma strchr_none t tail off :
  plain t → (tail = [] ∨ ∃ j, tail = NUL :: j) →
  Libc.strchr (t ++ tail) SEP off = None.
Proof.
  intros Hp Ht. revert off.
  induction Hp as [|x t [Hs Hn] _ IH]; intros off; simpl.
  - by destruct Ht as [->|[j ->]].
  - decide_all.
Qed.

Lemma nul_seps_0 l : nul_seps 0 l = l.
Proof. by destruct l. Qed.

Lemma nul_seps_sep n t r :
  plain t → nul_seps (S n) (t ++ SEP :: r) = t ++ NUL :: nul_seps n r.
Proof.
  induction 1 as [|x t [Hs Hn] _ IH]; simpl; [done|].
  decide_all. by rewrite <- IH.
Qed.

Lemma nul_seps_last n t tail :
  plain t → (tail = [] ∨ ∃ j, tail = NUL :: j) →
  nul_seps n (t ++ tail) = t ++ tail.
Proof.
  intros Hp Ht. destruct n as [|n]; [by destruct (t ++ tail)|].
  induction Hp as [|x t [Hs Hn] _ IH]; simpl.
  - by destruct Ht as [->|[j ->]].
  - decide_all. by rewrite IH.
Qed.

Lemma cstring_plain t tail :
  plain t → (tail = [] ∨ ∃ j, tail = NUL :: j) → cstring (t ++ tail) = t.
Proof.
  intros Hp Ht.
  induction Hp as [|x t [Hs Hn] _ IH]; simpl.
  - by destruct Ht as [->|[j ->]].
  - decide_all. by rewrite IH.
Qed.

(** ** The fstab storage *)

Lemma slot_Some m i b : slot m i = Some b ↔ m !! i = Some (Some b).
Proof.
  unfold slot. destruct (m !! i) as [[b'|]|]; simpl; split; congruence.
Qed.

Lemma slot_lt m i b : slot m i = Some b → (i < length m)%nat.
Proof. rewrite slot_Some. apply lookup_lt_Some. Qed.

Lemma slot_insert_eq m i b b' :
  slot m i = Some b → slot (<[i := Some b']> m) i = Some b'.
Proof.
  intros H%slot_lt. apply slot_Some. by apply list_lookup_insert_eq.
Qed.

Lemma slot_insert_ne m i j x : i ≠ j → slot (<[i := x]> m) j = slot m j.
Proof. intros H. unfold slot. by rewrite list_lookup_insert_ne. Qed.

Lemma slot_insert_id m i b : slot m i = Some b → <[i := Some b]> m = m.
Proof. intros H%slot_Some. by apply list_insert_id. Qed.

(** ** The tokenizer on an array split at the cursor *)

Section Tokenizer.

Variables (i : nat) (m : memory) (tr : list event).

Lemma deref_cursor pre cur :
  slot m i = Some (pre ++ cur) →
  deref m (Ptr (BEnt i) (length pre)) = Some (pre ++ cur).
Proof.
  intros H. unfold deref. simpl. rewrite H.
  rewrite decide_True; [done|]. rewrite length_app. lia.
Qed.

(** A separator follows the token at the cursor: it becomes a terminator
    and the cursor moves behind it. *)
Lemma next_volume_arg_sep pre t cur' :
  slot m i = Some (pre ++ t ++ SEP :: cur') → plain t →
  vfscore_fstab_next_volume_arg (Some (Ptr (BEnt i) (length pre)))
    (State m tr)
  = (Ok (Some (Ptr (BEnt i) (length pre)),
         Some (Ptr (BEnt i) (length (pre ++ t ++ [NUL])))),
     State (<[i := Some ((pre ++ t ++ [NUL]) ++ cur')]> m) tr).
Proof.
  intros Hs Hp.
  unfold vfscore_fstab_next_volume_arg, bind, strchr. simpl.
  rewrite (deref_cursor _ _ Hs). simpl.
  rewrite drop_app_length, strchr_sep by done. simpl.
  assert (Hmid : (pre ++ t ++ SEP :: cur') !! (length pre + length t)%nat
                 = Some SEP).
  { rewrite app_assoc, <- length_app. apply list_lookup_middle. done. }
  unfold load, deref. simpl. rewrite Hs.
  rewrite decide_True by (rewrite !length_app; simpl; lia).
  rewrite (nth_lookup_Some _ _ _ _ Hmid).
  rewrite decide_True by done.
  unfold store. simpl. rewrite Hs.
  rewrite decide_True by (rewrite !length_app; simpl; lia).
  unfold ret, ptr_inc. simpl.
  assert (Hlen : length (pre ++ t ++ [NUL]) = S (length pre + length t)).
  { rewrite !length_app. simpl. lia. }
  assert (Hins : <[(length pre + length t)%nat := NUL]>
                   (pre ++ t ++ SEP :: cur') = (pre ++ t ++ [NUL]) ++ cur').
  { rewrite insert_app_r.
    replace (length t) with (length t + 0)%nat by lia.
    rewrite insert_app_r. simpl. by rewrite <- !app_assoc. }
  by rewrite Hlen, Hins.
Qed.

(** No separator is left: the token at the cursor is the last one. *)
Lemma next_volume_arg_last pre t tail :
  slot m i = Some (pre ++ t ++ tail) → plain t →
  (tail = [] ∨ ∃ j, tail = NUL :: j) →
  vfscore_fstab_next_volume_arg (Some (Ptr (BEnt i) (length pre)))
    (State m tr)
  = (Ok (Some (Ptr (BEnt i) (length pre)), None), State m tr).
Proof.
  intros Hs Hp Ht.
  unfold vfscore_fstab_next_volume_arg, bind, strchr. simpl.
  rewrite (deref_cursor _ _ Hs). simpl.
  by rewrite drop_app_length, strchr_none.
Qed.

(** The first byte of a token that was cut off at a separator or is the
    last one. *)
Lemma load_token b pre t tail :
  slot m i = Some b → b = pre ++ t ++ tail →
  (tail = [] ∨ ∃ j, tail = NUL :: j) →
  load (Ptr (BEnt i) (length pre)) (State m tr)
  = (Ok (hd NUL t), State m tr).
Proof.
  intros Hs -> Ht. unfold load. simpl.
  rewrite (deref_cursor _ _ Hs). simpl. f_equal. f_equal.
  rewrite nth_lookup, lookup_app_r by lia.
  rewrite Nat.sub_diag.
  destruct t as [|x t]; simpl; [|done].
  by destruct Ht as [->|[j ->]].
Qed.

Lemma read_cstring_token pre t tail :
  slot m i = Some (pre ++ t ++ tail) → plain t →
  (tail = [] ∨ ∃ j, tail = NUL :: j) →
  read_cstring (Ptr (BEnt i) (length pre)) (State m tr)
  = (Ok t, State m tr).
Proof.
  intros Hs Hp Ht. unfold read_cstring, cstring_at. simpl.
  rewrite (deref_cursor _ _ Hs). simpl.
  by rewrite drop_app_length, cstring_plain.
Qed.

End Tokenizer.

(** ** The parser on the fields of an entry *)

Lemma bind_Ok {A B} (c : M A) (k : A → M B) s a s' :
  c s = (Ok a, s') → bind c k s = k a s'.
Proof. unfold bind. by intros ->. Qed.

Lemma bind_AssertFail {A B} (c : M A) (k : A → M B) s s' :
  c s = (AssertFail, s') → bind c k s = (AssertFail, s').
Proof. unfold bind. by intros ->. Qed.

Lemma next_volume_arg_null s :
  vfscore_fstab_next_volume_arg None s = (Ok (None, None), s).
Proof. done. Qed.

#[local] Arguments vfscore_fstab_next_volume_arg : simpl never.

Ltac step_by tac :=
  erewrite bind_Ok by tac; simpl;
  repeat (erewrite (bind_Ok (UK_ASSERT _)) by reflexivity; simpl);
  try (erewrite (bind_AssertFail (UK_ASSERT _)) by reflexivity).
Ltac step_sep Hs Hp :=
  step_by ltac:(eapply next_volume_arg_sep; [exact Hs | exact Hp]).
Ltac step_last Hs Hp Ht :=
  step_by ltac:(eapply next_volume_arg_last; [exact Hs | exact Hp | exact Ht]).
Ltac step_null := step_by ltac:(apply next_volume_arg_null).

(** The value of the flags token at the cursor. *)
Lemma flags_token_value i m tr b pre f tail :
  slot m i = Some b → b = pre ++ f ++ tail → plain f →
  (tail = [] ∨ ∃ j, tail = NUL :: j) →
  (let* ch := load (Ptr (BEnt i) (length pre)) in
   if decide (ch ≠ NUL) then
     let* n := strtol (Ptr (BEnt i) (length pre)) 0 in ret (to_ulong n)
   else ret 0) (State m tr)
  = (Ok (match f with
         | [] => 0
         | _ => to_ulong (Libc.strtol f 0)
         end), State m tr).
Proof.
  intros Hs -> Hp Ht.
  erewrite bind_Ok by (eapply load_token; [exact Hs | done | exact Ht]).
  destruct Hp as [|x f [Hx Hn] Hp]; simpl; [done|].
  rewrite decide_True by done. unfold strtol.
  erewrite bind_Ok;
    [|erewrite bind_Ok;
       [|eapply (read_cstring_token i m tr pre (x :: f) tail); auto];
       reflexivity].
  done.
Qed.

Ltac close_mem :=
  rewrite ?list_insert_insert_eq;
  repeat (rewrite nul_seps_sep by done);
  rewrite ?nul_seps_last by done;
  simpl; repeat (rewrite <- !app_assoc; simpl); try done.

Ltac close_ptr :=
  repeat f_equal; rewrite ?length_app; simpl; rewrite ?length_app; simpl; lia.

Theorem fetch_volume_args_fields i m tr b vv :
  slot m i = Some b →
  vfscore_fstab_fetch_volume_args (Some (Ptr (BEnt i) 0)) vv (State m tr)
  = (parse_fields i vv (entry_fields b),
     State (<[i := Some (nul_seps 5 b)]> m) tr).
Proof.
  intros Hs.
  unfold vfscore_fstab_fetch_volume_args.
  step_by ltac:(reflexivity).
  pose proof (entry_fields_inv b) as Hb.
  destruct (entry_fields b) as [|a [|p ts]]; [done| |].
  { (* one field *)
    destruct Hb as (Hpa & tail & -> & Ht).
    step_by ltac:(exact (next_volume_arg_last i m tr [] a tail Hs Hpa Ht)).
    step_null.
    by rewrite nul_seps_last, (slot_insert_id _ _ _ Hs). }
  destruct Hb as (Hpa & cur1 & -> & E1).
  step_by ltac:(exact (next_volume_arg_sep i m tr [] a cur1 Hs Hpa)).
  pose proof (slot_insert_eq m i _ ((a ++ [NUL]) ++ cur1) Hs) as Hs1.
  pose proof (entry_fields_inv cur1) as H1. rewrite E1 in H1. clear E1.
  destruct ts as [|d ts].
  { (* two fields *)
    destruct H1 as (Hpp & tail & -> & Ht).
    step_last Hs1 Hpp Ht.
    step_null.
    by close_mem. }
  destruct H1 as (Hpp & cur2 & -> & E2).
  step_sep Hs1 Hpp. rewrite list_insert_insert_eq.
  pose proof (slot_insert_eq m i _
                (((a ++ [NUL]) ++ p ++ [NUL]) ++ cur2) Hs) as Hs2.
  pose proof (entry_fields_inv cur2) as H2. rewrite E2 in H2. clear E2.
  destruct ts as [|f ts].
  { (* three fields *)
    destruct H2 as (Hpd & tail & -> & Ht).
    step_last Hs2 Hpd Ht.
    unfold ret. f_equal; [|f_equal; by close_mem].
    unfold parse_fields. f_equal. f_equal; close_ptr. }
  destruct H2 as (Hpd & cur3 & -> & E3).
  step_sep Hs2 Hpd. rewrite list_insert_insert_eq.
  pose proof (slot_insert_eq m i _
                ((((a ++ [NUL]) ++ p ++ [NUL]) ++ d ++ [NUL]) ++ cur3) Hs)
    as Hs3.
  pose proof (entry_fields_inv cur3) as H3. rewrite E3 in H3. clear E3.
  destruct ts as [|o ts].
  { (* four fields *)
    destruct H3 as (Hpf & tail & -> & Ht).
    step_last Hs3 Hpf Ht.
    step_by ltac:(eapply (flags_token_value i _ tr _ _ f tail);
                  [exact Hs3 | done | exact Hpf | exact Ht]).
    step_null.
    unfold ret. f_equal; [|f_equal; by close_mem].
    unfold parse_fields. f_equal. f_equal; close_ptr. }
  destruct H3 as (Hpf & cur4 & -> & E4).
  step_sep Hs3 Hpf. rewrite list_insert_insert_eq.
  pose proof (slot_insert_eq m i _
      (((((a ++ [NUL]) ++ p ++ [NUL]) ++ d ++ [NUL]) ++ f ++ [NUL]) ++ cur4)
      Hs) as Hs4.
  step_by ltac:(eapply (flags_token_value i _ tr _ _ f (NUL :: cur4));
                [exact Hs4 | by rewrite <- !app_assoc | exact Hpf
                | right; by eexists]).
  pose proof (entry_fields_inv cur4) as H4. rewrite E4 in H4. clear E4.
  destruct ts as [|x ts].
  { (* five fields *)
    destruct H4 as (Hpo & tail & -> & Ht).
    step_last Hs4 Hpo Ht.
    step_by ltac:(eapply (load_token i _ tr _ _ o tail);
                  [exact Hs4 | done | exact Ht]).
    unfold ret, parse_fields.
    rewrite !nul_seps_sep, nul_seps_last by done.
    destruct Hpo as [|y o [Hy Hn] Hpo]; simpl.
    - f_equal; [|f_equal; by close_mem]. f_equal. f_equal; close_ptr.
    - rewrite decide_False by done.
      f_equal; [|f_equal; by close_mem]. f_equal. f_equal; close_ptr. }
  (* more than five fields: the options stop at the fifth separator *)
  destruct H4 as (Hpo & cur5 & -> & E5).
  step_sep Hs4 Hpo. rewrite list_insert_insert_eq.
  step_by ltac:(eapply (load_token i _ tr _ _ o (NUL :: cur5));
                [by eapply slot_insert_eq | by rewrite <- !app_assoc
                | right; by eexists]).
  unfold ret, parse_fields.
  rewrite !nul_seps_sep, nul_seps_0 by done.
  destruct Hpo as [|y o [Hy Hn] Hpo]; simpl.
  - f_equal; [|f_equal; by close_mem]. f_equal. f_equal; close_ptr.
  - rewrite decide_False by done. cbv beta.
    f_equal; [|f_equal; by close_mem]. f_equal. f_equal; close_ptr.
Qed.

(** ** Computations that leave the fstab storage alone *)

Lemma mem_const_ret {A} (a : A) : mem_const (ret a).
Proof. done. Qed.

Lemma mem_const_fault {A} : mem_const (@fault A).
Proof. done. Qed.

Lemma mem_const_bind {A B} (c : M A) (k : A → M B) :
  mem_const c → (∀ a, mem_const (k a)) → mem_const (bind c k).
Proof.
  intros Hc Hk s. unfold bind. specialize (Hc s).
  destruct (c s) as [[a| |] s']; simpl in *; [|done..].
  by rewrite Hk.
Qed.

Lemma mem_const_UK_ASSERT b : mem_const (UK_ASSERT b).
Proof. intros s. unfold UK_ASSERT. by destruct b. Qed.

Lemma mem_const_load p : mem_const (load p).
Proof. intros s. unfold load. by destruct (deref _ _). Qed.

Lemma mem_const_read_cstring p : mem_const (read_cstring p).
Proof. intros s. unfold read_cstring. by destruct (cstring_at _ _). Qed.

Lemma mem_const_strncmp p l n : mem_const (strncmp p l n).
Proof.
  destruct p as [p|]; simpl; [|apply mem_const_fault].
  apply mem_const_bind; [apply mem_const_read_cstring|].
  intros. apply mem_const_ret.
Qed.

Lemma mem_const_mount w a b d fl o : mem_const (mount w a b d fl o).
Proof. done. Qed.

Lemma mem_const_ukcpio_extract w p base len :
  mem_const (ukcpio_extract w p base len).
Proof. done. Qed.

Lemma mem_const_find_initrd0 w : mem_const (ukplat_memregion_find_initrd0 w).
Proof.
  intros s. unfold ukplat_memregion_find_initrd0.
  by destruct (w_find_initrd0 w (trace s)) as [rc [vbase len]].
Qed.

Create HintDb mem_const discriminated.
#[local] Hint Resolve mem_const_ret mem_const_fault mem_const_UK_ASSERT
  mem_const_load mem_const_read_cstring mem_const_strncmp mem_const_mount
  mem_const_ukcpio_extract mem_const_find_initrd0 : mem_const.

Ltac mem_const_tac :=
  repeat first
    [ progress eauto with mem_const
    | apply mem_const_bind
    | case_decide
    | case_match
    | intros ? ].

Lemma mem_const_do_mount_initrd w initrd len dir :
  mem_const (do_mount_initrd w initrd len dir).
Proof. unfold do_mount_initrd. mem_const_tac. Qed.

Lemma mem_const_mount_initrd_volume w vv :
  mem_const (vfscore_mount_initrd_volume w vv).
Proof.
  unfold vfscore_mount_initrd_volume.
  apply mem_const_bind; [apply mem_const_find_initrd0|].
  intros [rc [vbase len]]. case_decide; [apply mem_const_ret|].
  apply mem_const_do_mount_initrd.
Qed.

Lemma mem_const_mount_volume w vv : mem_const (vfscore_mount_volume w vv).
Proof. apply mem_const_mount. Qed.

#[local] Hint Resolve mem_const_do_mount_initrd mem_const_mount_initrd_volume
  mem_const_mount_volume : mem_const.

Lemma mem_const_automount_rootfs c w :
  mem_const (vfscore_automount_rootfs c w).
Proof.
  unfold vfscore_automount_rootfs, vfscore_automount_rootfs_einitrd,
    vfscore_automount_rootfs_config.
  mem_const_tac.
Qed.

(** ** What a run does to the fstab storage *)

#[local] Instance byte_step_refl : Reflexive byte_step.
Proof. intros x. by left. Qed.

#[local] Instance byte_step_trans : Transitive byte_step.
Proof.
  intros x y z [->|[-> ->]] [->|[Hy ->]]; unfold byte_step; auto.
Qed.

#[local] Instance mem_step_refl : Reflexive mem_step.
Proof. intros m. unfold mem_step. reflexivity. Qed.

#[local] Instance mem_step_trans : Transitive mem_step.
Proof. intros m1 m2 m3. unfold mem_step. apply transitivity. Qed.

Lemma nul_seps_step n b : Forall2 byte_step b (nul_seps n b).
Proof.
  revert n. induction b as [|x b IH]; intros [|n]; simpl; try reflexivity.
  case_decide; [subst; constructor; [by right|apply IH]|].
  case_decide; [reflexivity|]. constructor; [by left|apply IH].
Qed.

Lemma mem_step_insert m i b b' :
  slot m i = Some b → Forall2 byte_step b b' →
  mem_step m (<[i := Some b']> m).
Proof.
  intros Hs Hb. unfold mem_step.
  rewrite <- (slot_insert_id m i b Hs) at 1.
  apply Forall2_insert; [reflexivity|]. by constructor.
Qed.

(** A turn of the loop cuts the entry of its slot at its first five
    separators and touches nothing else of the storage. *)
Lemma fstab_volume_mem c w i vv s b :
  slot (vfscore_fstab s) i = Some b →
  vfscore_fstab (fstab_volume c w i vv s).2
  = <[i := Some (nul_seps 5 b)]> (vfscore_fstab s).
Proof.
  destruct s as [m tr]. simpl. intros Hs.
  unfold fstab_volume. unfold bind at 1.
  rewrite (fetch_volume_args_fields i m tr b vv Hs).
  destruct (parse_fields i vv (entry_fields b)) as [vv'| |]; [|done..].
  match goal with
  | |- vfscore_fstab (?k ?s).2 = _ =>
      assert (Hk : mem_const k); [|by rewrite Hk]
  end.
  mem_const_tac.
Qed.

Lemma fstab_volumes_from_step c w n i vv s :
  mem_step (vfscore_fstab s)
           (vfscore_fstab (fstab_volumes_from c w n i vv s).2).
Proof.
  revert i vv s. induction n as [|n IH]; intros i vv s; simpl; [reflexivity|].
  destruct (slot (vfscore_fstab s) i) as [b|] eqn:Hs; [|reflexivity].
  pose proof (fstab_volume_mem c w i vv s b Hs) as Hm.
  unfold bind.
  destruct (fstab_volume c w i vv s) as [[[rc vv']| |] s']; simpl in Hm.
  - case_decide; simpl.
    + rewrite Hm. eapply mem_step_insert; [done|apply nul_seps_step].
    + etrans; [|apply IH]. rewrite Hm.
      eapply mem_step_insert; [done|apply nul_seps_step].
  - simpl. rewrite Hm. eapply mem_step_insert; [done|apply nul_seps_step].
  - simpl. rewrite Hm. eapply mem_step_insert; [done|apply nul_seps_step].
Qed.

Lemma automount_step c w s :
  mem_step (vfscore_fstab s) (vfscore_fstab (vfscore_automount c w s).2).
Proof.
  unfold vfscore_automount, bind.
  pose proof (mem_const_automount_rootfs c w s) as Hr.
  destruct (vfscore_automount_rootfs c w s) as [[rc| |] s']; simpl in *;
    [|by rewrite Hr..].
  case_decide; simpl; [by rewrite Hr|].
  rewrite <- Hr. unfold vfscore_automount_fstab_volumes.
  destruct (CONFIG_LIBVFSCORE_FSTAB c); [|reflexivity].
  apply fstab_volumes_from_step.
Qed.

(** ** The loop, turn by turn *)

Lemma fstab_volume_slot_ne c w i vv s b j :
  slot (vfscore_fstab s) i = Some b → j ≠ i →
  slot (vfscore_fstab (fstab_volume c w i vv s).2) j
  = slot (vfscore_fstab s) j.
Proof.
  intros Hs Hj. rewrite (fstab_volume_mem c w i vv s b Hs).
  by apply slot_insert_ne.
Qed.

Lemma fstab_volume_slot_set c w i vv s b j :
  slot (vfscore_fstab s) i = Some b →
  is_Some (slot (vfscore_fstab s) j) →
  is_Some (slot (vfscore_fstab (fstab_volume c w i vv s).2) j).
Proof.
  intros Hs Hj. destruct (decide (j = i)) as [->|Hne].
  - rewrite (fstab_volume_mem c w i vv s b Hs).
    erewrite slot_insert_eq by done. by eexists.
  - by erewrite fstab_volume_slot_ne.
Qed.

Lemma turns_slots c w k i vv s vv1 s1 :
  (∀ j, i ≤ j < i + k → is_Some (slot (vfscore_fstab s) j))%nat →
  turns c w k i vv s = Some (vv1, s1) →
  (∀ j, is_Some (slot (vfscore_fstab s) j) →
        is_Some (slot (vfscore_fstab s1) j)) ∧
  (∀ j, (j < i ∨ i + k ≤ j)%nat →
        slot (vfscore_fstab s1) j = slot (vfscore_fstab s) j).
Proof.
  revert i vv s. induction k as [|k IH]; intros i vv s Hset Ht; simpl in Ht.
  { by simplify_eq. }
  destruct (Hset i ltac:(lia)) as [b Hb].
  pose proof (fstab_volume_slot_set c w i vv s b) as Hkeep.
  pose proof (fstab_volume_slot_ne c w i vv s b) as Hne.
  destruct (fstab_volume c w i vv s) as [[[rc vv']| |] s']; [|done..].
  case_decide; [|done]. simpl in *.
  apply IH in Ht as [H1 H2].
  - split.
    + intros j Hj. apply H1. by apply Hkeep.
    + intros j Hj. rewrite H2 by lia. apply Hne; [done|lia].
  - intros j Hj. apply Hkeep; [done|]. apply Hset. lia.
Qed.

(** While the mounts succeed, the loop is its turns one after the other. *)
Lemma fstab_volumes_from_turns c w k n i vv s vv1 s1 :
  (∀ j, i ≤ j < i + k → is_Some (slot (vfscore_fstab s) j))%nat →
  turns c w k i vv s = Some (vv1, s1) →
  fstab_volumes_from c w (k + n) i vv s
  = fstab_volumes_from c w n (i + k) vv1 s1.
Proof.
  revert i vv s. induction k as [|k IH]; intros i vv s Hset Ht; simpl in Ht.
  { simplify_eq. by rewrite Nat.add_0_r. }
  destruct (Hset i ltac:(lia)) as [b Hb]. simpl. rewrite Hb.
  pose proof (λ j, fstab_volume_slot_set c w i vv s b j Hb) as Hkeep.
  unfold bind at 1.
  destruct (fstab_volume c w i vv s) as [[[rc vv']| |] s']; [|done..].
  case_decide; [|done]. subst rc. rewrite decide_False by lia.
  rewrite (IH (S i) vv' s'); [f_equal; lia| |done].
  intros j Hj. apply Hkeep. apply Hset. lia.
Qed.

(** The turn that fails ends the loop with its status. *)
Lemma fstab_volumes_from_fails c w n i vv s rc vv' s' :
  is_Some (slot (vfscore_fstab s) i) →
  fstab_volume c w i vv s = (Ok (rc, vv'), s') → rc ≠ 0 →
  fstab_volumes_from c w (S n) i vv s = (Ok rc, s').
Proof.
  intros [b Hb] Hv Hrc. simpl. rewrite Hb. unfold bind. rewrite Hv.
  by rewrite decide_True.
Qed.

(** An empty table: Phase B returns 0 and does nothing. *)
Lemma fstab_empty_table c w s :
  slot (vfscore_fstab s) 0 = None →
  vfscore_automount_fstab_volumes c w s = (Ok 0, s).
Proof.
  intros H0. unfold vfscore_automount_fstab_volumes.
  destruct (CONFIG_LIBVFSCORE_FSTAB c); [|done].
  destruct (CONFIG_LIBVFSCORE_FSTAB_SIZE c); simpl; [done|].
  by rewrite H0.
Qed.

(** ** The orchestrator *)

Lemma automount_rootfs_negative c w s rc s' :
  vfscore_automount_rootfs c w s = (Ok rc, s') → rc < 0 →
  vfscore_automount c w s = (Ok rc, s').
Proof.
  intros Hr Hrc. unfold vfscore_automount, bind. rewrite Hr.
  by rewrite decide_True.
Qed.

Lemma automount_rootfs_nonnegative c w s rc s' :
  vfscore_automount_rootfs c w s = (Ok rc, s') → 0 ≤ rc →
  vfscore_automount c w s = vfscore_automount_fstab_volumes c w s'.
Proof.
  intros Hr Hrc. unfold vfscore_automount, bind. rewrite Hr.
  by rewrite decide_False by lia.
Qed.

(** The three-entry table whose second mount fails: two calls to mount(2),
    for the first and the second entry, and the status of the second. *)
Example three_entries_second_fails :
  let s0 := boot ["sda0:/a:ext4"; "sda1:/b:ext4"; "sda2:/c:ext4"]%string in
  let r := vfscore_automount cfg_noroot world_b_fails s0 in
  r.1 = Ok (-1) ∧
  mount_calls (trace r.2)
  = [EvMount (CStr "sda0") (CStr "/a") (CStr "ext4") 0 CNull 0;
     EvMount (CStr "sda1") (CStr "/b") (CStr "ext4") 0 CNull (-1)] ∧
  slot (vfscore_fstab r.2) 2 = entry "sda2:/c:ext4".
Proof. vm_compute. done. Qed.

(** ** The root filesystem *)

Lemma strncmp_initrd_prefix d :
  String.prefix "initrd" d = true →
  Libc.strncmp (cstring (list_ascii_of_string d))
               (list_ascii_of_string "initrd") (String.length "initrd") = 0.
Proof.
  intros H.
  do 6 (destruct d as [|? d]; [done|]; cbn [String.prefix] in H;
        match type of H with
        | context [ascii_dec ?x ?y] =>
            destruct (ascii_dec x y) as [<-|]; [|done]
        end).
  done.
Qed.

Lemma prefix_initrd_first d :
  String.prefix "initrd" d = true →
  nth 0 (list_ascii_of_string d) NUL ≠ NUL.
Proof.
  intros H. destruct d as [|a d]; [done|]. cbn [String.prefix] in H.
  match type of H with
  | context [ascii_dec ?x ?y] => by destruct (ascii_dec x y) as [<-|]
  end.
Qed.

Lemma load_lit d s :
  load (Ptr (BLit d) 0) s = (Ok (nth 0 (list_ascii_of_string d) NUL), s).
Proof.
  unfold load, deref. cbn [bytes_of p_blk p_off].
  by rewrite decide_True by lia.
Qed.

Lemma strncmp_lit d l n s :
  strncmp (lit d) l n s
  = (Ok (Libc.strncmp (cstring (list_ascii_of_string d))
                      (list_ascii_of_string l) n), s).
Proof.
  unfold strncmp, lit, bind, read_cstring, cstring_at, deref.
  cbn [bytes_of p_blk p_off]. rewrite decide_True by lia.
  by rewrite drop_0.
Qed.

(** C8. When the root configuration has an empty driver, or none, the
    resolver that reads the root configuration (the build is not one with an
    embedded initrd) returns 0 at once: the state it returns is the state it
    was called in, so there was no call to mount(2), none to the initrd
    lookup and none to the extraction. *)
Theorem rootfs_empty_driver_skips c w s :
  CONFIG_LIBVFSCORE_ROOTFS_EINITRD c = false →
  CONFIG_LIBVFSCORE_ROOTFS c = None
  ∨ CONFIG_LIBVFSCORE_ROOTFS c = Some ""%string →
  vfscore_automount_rootfs c w s = (Ok 0, s).
Proof.
  intros He Hd. unfold vfscore_automount_rootfs. rewrite He.
  destruct (CONFIG_LIBVFSCORE_AUTOMOUNT_ROOTFS c); [|done].
  unfold vfscore_automount_rootfs_config. simpl.
  by destruct Hd as [-> | ->].
Qed.

Lemma rootfs_empty_driver_skips_witness :
  vfscore_automount_rootfs cfg_noroot world_ok (boot ["sda0:/mnt:ext4"%string])
  = (Ok 0, boot ["sda0:/mnt:ext4"%string]).
Proof.
  apply (rootfs_empty_driver_skips cfg_noroot world_ok);
    [reflexivity | right; reflexivity].
Defined.

(** C9. In a build with initrd support whose root driver starts with
    "initrd", when the platform reports no initial ramdisk (the lookup
    returns a negative status) the resolver returns -1 after that one
    lookup, without any call to mount(2), and the orchestrator returns this
    -1 without entering Phase B. *)
Theorem rootfs_initrd_unavailable c w s d :
  CONFIG_LIBVFSCORE_AUTOMOUNT_ROOTFS c = true →
  CONFIG_LIBVFSCORE_ROOTFS_EINITRD c = false →
  cpio_and_ramfs c = true →
  CONFIG_LIBVFSCORE_ROOTFS c = Some d →
  String.prefix "initrd" d = true →
  to_int (w_find_initrd0 w (trace s)).1 < 0 →
  let found := w_find_initrd0 w (trace s) in
  let s' := State (vfscore_fstab s)
                  (trace s ++ [EvFindInitrd0 (to_int found.1) found.2.1
                                             (to_ulong found.2.2)]) in
  vfscore_automount_rootfs c w s = (Ok (-1), s') ∧
  vfscore_automount c w s = (Ok (-1), s') ∧
  mount_calls (trace s') = mount_calls (trace s).
Proof.
  intros Ha He Hc Hd Hp Hf found s'.
  assert (Hroot : vfscore_automount_rootfs c w s = (Ok (-1), s')).
  { unfold vfscore_automount_rootfs. rewrite Ha, He.
    unfold vfscore_automount_rootfs_config. cbn [drv path]. rewrite Hd, Hc.
    unfold lit at 1. cbv beta iota.
    erewrite bind_Ok;
      [|erewrite bind_Ok by apply load_lit; reflexivity].
    rewrite bool_decide_eq_false_2 by by apply prefix_initrd_first.
    erewrite bind_Ok;
      [|erewrite bind_Ok by apply strncmp_lit; reflexivity].
    rewrite (strncmp_initrd_prefix d Hp).
    rewrite bool_decide_eq_true_2 by done.
    unfold vfscore_mount_initrd_volume, bind, ukplat_memregion_find_initrd0.
    subst s' found.
    destruct (w_find_initrd0 w (trace s)) as [rc [vbase len]]. simpl in *.
    by rewrite decide_True. }
  split; [done|]. split.
  - by apply automount_rootfs_negative.
  - unfold mount_calls. simpl. rewrite filter_app. simpl.
    by rewrite app_nil_r.
Qed.

Lemma rootfs_initrd_unavailable_witness :
  let s0 := boot ["sda0:/mnt:ext4"%string] in
  let s' := State (vfscore_fstab s0) [EvFindInitrd0 (-1) 0 0] in
  vfscore_automount_rootfs cfg_initrd world_ok s0 = (Ok (-1), s') ∧
  vfscore_automount cfg_initrd world_ok s0 = (Ok (-1), s') ∧
  mount_calls (trace s') = mount_calls (trace s0).
Proof.
  apply (rootfs_initrd_unavailable cfg_initrd world_ok
           (boot ["sda0:/mnt:ext4"%string]) "initrd"%string);
    [reflexivity | reflexivity | reflexivity | reflexivity | reflexivity
    | vm_compute; reflexivity].
Defined.

(** ** Parsing one entry *)

Lemma resolve_slot m i b off :
  slot m i = Some b → (off ≤ length b)%nat →
  resolve m (Some (Ptr (BEnt i) off))
  = CStr (string_of_list_ascii (cstring (drop off b))).
Proof.
  intros Hs Hoff. unfold resolve, cstring_at, deref. simpl.
  by rewrite Hs, decide_True.
Qed.

Ltac resolve_token Hs :=
  erewrite resolve_slot; cycle 1;
    [by eapply slot_insert_eq, Hs | vm_compute; lia | reflexivity].

(** C4. Parsing the entry "sda0:/mnt:ext4:0x10:ro", in whatever slot it
    sits and whatever the descriptor held before, gives source "sda0", path
    "/mnt", driver "ext4", flags 0x10 and options "ro". *)
Theorem fetch_five_fields i m tr vv :
  slot m i = entry "sda0:/mnt:ext4:0x10:ro" →
  ∃ vv' m',
    vfscore_fstab_fetch_volume_args (Some (Ptr (BEnt i) 0)) vv (State m tr)
    = (Ok vv', State m' tr) ∧
    resolve m' (sdev vv') = CStr "sda0" ∧
    resolve m' (path vv') = CStr "/mnt" ∧
    resolve m' (drv vv') = CStr "ext4" ∧
    flags vv' = 0x10 ∧
    resolve m' (opts vv') = CStr "ro".
Proof.
  intros Hs. unfold entry in Hs.
  rewrite (fetch_volume_args_fields i m tr _ vv Hs).
  eexists (Volume (Some (Ptr (BEnt i) 0)) (Some (Ptr (BEnt i) 5))
                  (Some (Ptr (BEnt i) 10)) 16 (Some (Ptr (BEnt i) 20))), _.
  split; [reflexivity|]. simpl sdev. simpl path. simpl drv. simpl opts.
  repeat split; resolve_token Hs.
Qed.

Lemma fetch_five_fields_witness :
  ∃ vv' m',
    vfscore_fstab_fetch_volume_args (Some (Ptr (BEnt 0) 0)) vv_junk
      (boot ["sda0:/mnt:ext4:0x10:ro"%string])
    = (Ok vv', State m' []) ∧
    resolve m' (sdev vv') = CStr "sda0" ∧
    resolve m' (path vv') = CStr "/mnt" ∧
    resolve m' (drv vv') = CStr "ext4" ∧
    flags vv' = 0x10 ∧
    resolve m' (opts vv') = CStr "ro".
Proof.
  apply (fetch_five_fields 0 (entry <$> ["sda0:/mnt:ext4:0x10:ro"%string])
           [] vv_junk).
  reflexivity.
Defined.

(** An entry of exactly three fields leaves the flags and the options of
    the descriptor as they were. *)
Lemma fetch_three_fields_keeps i m tr b vv a p d :
  slot m i = Some b → entry_fields b = [a; p; d] →
  ∃ vv',
    (vfscore_fstab_fetch_volume_args (Some (Ptr (BEnt i) 0)) vv
       (State m tr)).1 = Ok vv' ∧
    flags vv' = flags vv ∧ opts vv' = opts vv.
Proof.
  intros Hs Hf. rewrite (fetch_volume_args_fields i m tr b vv Hs), Hf.
  by eexists.
Qed.

(** An entry with its three mandatory fields is parsed without a failed
    assertion. *)
Lemma fetch_three_or_more_fields i m tr b vv :
  slot m i = Some b → (3 ≤ length (entry_fields b))%nat →
  ∃ vv',
    (vfscore_fstab_fetch_volume_args (Some (Ptr (BEnt i) 0)) vv
       (State m tr)).1 = Ok vv'.
Proof.
  intros Hs Hf. rewrite (fetch_volume_args_fields i m tr b vv Hs).
  destruct (entry_fields b) as [|a [|p [|d [|f rest]]]]; simpl in *;
    try lia; by eexists.
Qed.

(** C5. When the fourth field of an entry is there and empty the parsed
    flags are 0; when the fifth field is there and empty the parsed options
    are a null pointer; and "sda0:/mnt:ext4::ro" gives flags 0 and options
    "ro". *)
Theorem fetch_empty_flags_and_opts i m tr b vv :
  slot m i = Some b →
  let r := vfscore_fstab_fetch_volume_args (Some (Ptr (BEnt i) 0)) vv
             (State m tr) in
  (entry_fields b !! 3%nat = Some [] →
   ∃ vv', r.1 = Ok vv' ∧ flags vv' = 0) ∧
  (entry_fields b !! 4%nat = Some [] →
   ∃ vv', r.1 = Ok vv' ∧ opts vv' = None) ∧
  (b = list_ascii_of_string "sda0:/mnt:ext4::ro" →
   ∃ vv', r.1 = Ok vv' ∧ flags vv' = 0 ∧
          resolve (vfscore_fstab r.2) (opts vv') = CStr "ro").
Proof.
  intros Hs r. subst r. rewrite (fetch_volume_args_fields i m tr b vv Hs).
  split; [|split].
  - intros H3.
    destruct (entry_fields b) as [|a [|p [|d [|f rest]]]]; simplify_eq/=.
    by eexists.
  - intros H4.
    destruct (entry_fields b) as [|a [|p [|d [|f [|o rest]]]]];
      simplify_eq/=.
    by eexists.
  - intros ->.
    eexists (Volume (Some (Ptr (BEnt i) 0)) (Some (Ptr (BEnt i) 5))
                    (Some (Ptr (BEnt i) 10)) 0 (Some (Ptr (BEnt i) 16))).
    split; [reflexivity|]. split; [reflexivity|].
    simpl opts. simpl vfscore_fstab. resolve_token Hs.
Qed.

Lemma fetch_empty_flags_and_opts_witness :
  (∃ vv',
     (vfscore_fstab_fetch_volume_args (Some (Ptr (BEnt 0) 0)) vv_junk
        (boot ["sda0:/mnt:ext4::ro"%string])).1 = Ok vv' ∧
     flags vv' = 0) ∧
  (∃ vv',
     (vfscore_fstab_fetch_volume_args (Some (Ptr (BEnt 0) 0)) vv_junk
        (boot ["sda0:/mnt:ext4:7:"%string])).1 = Ok vv' ∧
     opts vv' = None).
Proof.
  split.
  - refine (proj1 (fetch_empty_flags_and_opts 0
                     (entry <$> ["sda0:/mnt:ext4::ro"%string]) []
                     (list_ascii_of_string "sda0:/mnt:ext4::ro") vv_junk _)
                  _); reflexivity.
  - refine (proj1 (proj2 (fetch_empty_flags_and_opts 0
                     (entry <$> ["sda0:/mnt:ext4:7:"%string]) []
                     (list_ascii_of_string "sda0:/mnt:ext4:7:") vv_junk _))
                  _); reflexivity.
Defined.

(** C6. An entry with fewer than three colon-delimited fields does not give
    a descriptor: parsing it ends in a failed UK_ASSERT. *)
Theorem fetch_missing_mandatory_field i m tr b vv :
  slot m i = Some b → (length (entry_fields b) < 3)%nat →
  (vfscore_fstab_fetch_volume_args (Some (Ptr (BEnt i) 0)) vv
     (State m tr)).1 = AssertFail.
Proof.
  intros Hs Hf. rewrite (fetch_volume_args_fields i m tr b vv Hs).
  destruct (entry_fields b) as [|a [|p [|d rest]]]; simpl in *; try done.
  lia.
Qed.

Lemma fetch_missing_mandatory_field_witness :
  (vfscore_fstab_fetch_volume_args (Some (Ptr (BEnt 0) 0)) vv_junk
     (boot ["sda0:/mnt"%string])).1 = AssertFail.
Proof.
  refine (fetch_missing_mandatory_field 0 (entry <$> ["sda0:/mnt"%string])
            [] (list_ascii_of_string "sda0:/mnt") vv_junk _ _);
    [reflexivity | vm_compute; lia].
Defined.

(** ** The flags token *)

Lemma accum_stop base acc ds x junk :
  Forall (λ ch, Libc.is_digit_in base ch = true) ds →
  Libc.is_digit_in base x = false →
  Libc.accum base acc (ds ++ x :: junk) = Libc.accum base acc ds.
Proof.
  intros Hds Hx. revert acc.
  induction Hds as [|d ds Hd _ IH]; intros acc; simpl.
  - unfold Libc.is_digit_in in Hx.
    destruct (Libc.digit_val x); [by rewrite Hx|done].
  - unfold Libc.is_digit_in in Hd.
    destruct (Libc.digit_val d); [|done]. by rewrite Hd, IH.
Qed.

(** A decimal token: no white space, no sign, no base prefix. *)
Lemma strtol_decimal d rest :
  Libc.is_digit_in 10 d = true → d ≠ "0"%char →
  Libc.strtol (d :: rest) 0 = Libc.clamp_long (Libc.accum 10 0 (d :: rest)).
Proof.
  intros Hd H0.
  destruct d as [[] [] [] [] [] [] [] []]; try done.
Qed.

(** Characters after the digits are ignored. *)
Lemma strtol_ignores_trailing d ds x junk :
  Forall (λ ch, Libc.is_digit_in 10 ch = true) (d :: ds) →
  d ≠ "0"%char → Libc.is_digit_in 10 x = false →
  Libc.strtol ((d :: ds) ++ x :: junk) 0 = Libc.strtol (d :: ds) 0.
Proof.
  intros Hds H0 Hx. simpl app.
  rewrite !strtol_decimal by (done || by inversion Hds).
  f_equal. by apply (accum_stop 10 0 (d :: ds)).
Qed.

(** A token that starts with neither white space, a sign nor a digit has
    the value 0. *)
Lemma strtol_no_digits x rest :
  Libc.isspace x = false → x ≠ "+"%char → x ≠ "-"%char →
  Libc.is_digit_in 10 x = false →
  Libc.strtol (x :: rest) 0 = 0.
Proof.
  intros Hs Hp Hm Hd.
  destruct x as [[] [] [] [] [] [] [] []]; try done.
Qed.

(** C10. A flags token that is there and not empty is never a parse error:
    the entry is parsed and its flags are what strtol() with base 0 makes of
    the token, converted to unsigned long.  Characters after the digits are
    ignored ("12abc" is 12) and a token that does not start with a number
    is 0 ("ro" is 0). *)
Theorem fetch_flags_token_never_rejected i m tr b vv f :
  slot m i = Some b → entry_fields b !! 3%nat = Some f → f ≠ [] →
  (∃ vv',
     (vfscore_fstab_fetch_volume_args (Some (Ptr (BEnt i) 0)) vv
        (State m tr)).1 = Ok vv' ∧
     flags vv' = to_ulong (Libc.strtol f 0)) ∧
  (∀ d ds x junk,
     Forall (λ ch, Libc.is_digit_in 10 ch = true) (d :: ds) →
     d ≠ "0"%char → Libc.is_digit_in 10 x = false →
     Libc.strtol ((d :: ds) ++ x :: junk) 0 = Libc.strtol (d :: ds) 0) ∧
  (∀ x rest,
     Libc.isspace x = false → x ≠ "+"%char → x ≠ "-"%char →
     Libc.is_digit_in 10 x = false →
     Libc.strtol (x :: rest) 0 = 0) ∧
  Libc.strtol (list_ascii_of_string "12abc") 0 = 12 ∧
  Libc.strtol (list_ascii_of_string "ro") 0 = 0.
Proof.
  intros Hs H3 Hf.
  split; [|split; [|split; [|split]]].
  - rewrite (fetch_volume_args_fields i m tr b vv Hs).
    destruct (entry_fields b) as [|a [|p [|d [|f' rest]]]]; simplify_eq/=.
    destruct f; [done|]. by eexists.
  - apply strtol_ignores_trailing.
  - apply strtol_no_digits.
  - reflexivity.
  - reflexivity.
Qed.

Lemma fetch_flags_token_never_rejected_witness :
  (∃ vv',
     (vfscore_fstab_fetch_volume_args (Some (Ptr (BEnt 0) 0)) vv_junk
        (boot ["sda0:/mnt:ext4:12abc:x"%string])).1 = Ok vv' ∧
     flags vv' = to_ulong (Libc.strtol (list_ascii_of_string "12abc") 0)) ∧
  (∃ vv',
     (vfscore_fstab_fetch_volume_args (Some (Ptr (BEnt 0) 0)) vv_junk
        (boot ["sda0:/mnt:ext4:ro"%string])).1 = Ok vv' ∧
     flags vv' = to_ulong (Libc.strtol (list_ascii_of_string "ro") 0)).
Proof.
  split.
  - refine (proj1 (fetch_flags_token_never_rejected 0
                     (entry <$> ["sda0:/mnt:ext4:12abc:x"%string]) []
                     (list_ascii_of_string "sda0:/mnt:ext4:12abc:x") vv_junk
                     (list_ascii_of_string "12abc") _ _ _));
      [reflexivity | reflexivity | discriminate].
  - refine (proj1 (fetch_flags_token_never_rejected 0
                     (entry <$> ["sda0:/mnt:ext4:ro"%string]) []
                     (list_ascii_of_string "sda0:/mnt:ext4:ro") vv_junk
                     (list_ascii_of_string "ro") _ _ _));
      [reflexivity | reflexivity | discriminate].
Defined.

(** The two examples, as flags of a parsed entry. *)
Example flags_token_examples :
  let fl e := flags <$>
    match (vfscore_fstab_fetch_volume_args (Some (Ptr (BEnt 0) 0)) vv_junk
             (boot [e])).1 with
    | Ok vv' => Some vv'
    | _ => None
    end in
  fl "sda0:/mnt:ext4:12abc"%string = Some 12 ∧
  fl "sda0:/mnt:ext4:ro"%string = Some 0 ∧
  fl "sda0:/mnt:ext4:010"%string = Some 8 ∧
  fl "sda0:/mnt:ext4:-1"%string = Some (2 ^ 64 - 1).
Proof. vm_compute. done. Qed.

(** ** Runs that go against the description *)

(** C1. A root phase that returns a positive status does not stop the
    orchestrator.  With mount(2) answering 1 for "/", the resolver returns
    1, and yet the orchestrator goes on to Phase B, parses and mounts the
    entry of the table, and returns 0. *)
Theorem positive_root_status_runs_phase_b :
  let s0 := boot ["sda0:/mnt:ext4"%string] in
  let r := vfscore_automount cfg_ext4 world_root_1 s0 in
  (vfscore_automount_rootfs cfg_ext4 world_root_1 s0).1 = Ok 1 ∧
  r.1 = Ok 0 ∧
  trace r.2
  = [EvMount (CStr "vda") (CStr "/") (CStr "ext4") 0 (CStr "") 1;
     EvMount (CStr "sda0") (CStr "/mnt") (CStr "ext4") 0 CNull 0].
Proof. vm_compute. done. Qed.

(** C2. An entry of three fields does not reset the flags and the options:
    after "sda0:/a:ext4:0x10:ro", the entry "sda1:/b:ext4" is mounted with
    flags 0x10 and options "ro". *)
Theorem three_fields_inherit_previous_entry :
  let s0 := boot ["sda0:/a:ext4:0x10:ro"; "sda1:/b:ext4"]%string in
  let r := vfscore_automount cfg_noroot world_ok s0 in
  r.1 = Ok 0 ∧
  trace r.2
  = [EvMount (CStr "sda0") (CStr "/a") (CStr "ext4") 0x10 (CStr "ro") 0;
     EvMount (CStr "sda1") (CStr "/b") (CStr "ext4") 0x10 (CStr "ro") 0].
Proof. vm_compute. done. Qed.

(** The table is written to: after a run over the one entry
    "sda0:/mnt:ext4" its two separators are terminators. *)
Lemma fstab_entry_rewritten :
  let s0 := boot ["sda0:/mnt:ext4"%string] in
  vfscore_fstab (vfscore_automount cfg_noroot world_ok s0).2
  ≠ vfscore_fstab s0.
Proof. vm_compute. discriminate. Qed.

Example fstab_entry_after_run :
  let s0 := boot ["sda0:/mnt:ext4"%string] in
  slot (vfscore_fstab (vfscore_automount cfg_noroot world_ok s0).2) 0
  = Some (list_ascii_of_string "sda0" ++ NUL :: list_ascii_of_string "/mnt"
          ++ NUL :: list_ascii_of_string "ext4").
Proof. vm_compute. done. Qed.

(** C3, as the code has it.  A run of the orchestrator keeps the slots of
    the table and the length of every entry, and the only bytes of an entry
    that it changes are separators, which the tokenizer overwrites with
    terminators; every other byte is the same before and after the run. *)
Theorem automount_only_cuts_separators c w s :
  let m := vfscore_fstab s in
  let m' := vfscore_fstab (vfscore_automount c w s).2 in
  length m' = length m ∧
  ∀ i,
    match slot m i with
    | None => slot m' i = None
    | Some b =>
        ∃ b', slot m' i = Some b' ∧ length b' = length b ∧
              ∀ k x, b !! k = Some x →
                     b' !! k = Some x ∨ (x = SEP ∧ b' !! k = Some NUL)
    end.
Proof.
  intros m m'. pose proof (automount_step c w s) as Hstep.
  fold m m' in Hstep. unfold mem_step in Hstep.
  pose proof (Forall2_length _ _ _ Hstep) as Hlen.
  split; [done|]. intros i. unfold slot.
  destruct (m !! i) as [ob|] eqn:E; simpl.
  - destruct (Forall2_lookup_l _ _ _ _ _ Hstep E) as (ob' & -> & Hob).
    destruct Hob as [b b' Hb|]; simpl; [|done].
    exists b'. split; [done|].
    split; [symmetry; by eapply Forall2_length|].
    intros k x Hk.
    destruct (Forall2_lookup_l _ _ _ _ _ Hb Hk) as (y & -> & [->|[-> ->]]);
      auto.
  - apply lookup_ge_None in E.
    rewrite (proj2 (lookup_ge_None m' i)) by lia. done.
Qed.

(** * Further properties of automount.c *)

(** ** Reading the tokens back *)

Lemma fields_plain t : plain t → fields t = [t].
Proof.
  induction 1 as [|x t [Hs Hn] _ IH]; simpl; [done|].
  decide_all. by rewrite IH.
Qed.

Lemma drop_past_token (t : buf) x r n :
  drop (S (length t) + n) (t ++ x :: r) = drop n r.
Proof.
  replace (S (length t) + n)%nat with (length (t ++ [x]) + n)%nat
    by (rewrite length_app; simpl; lia).
  change (t ++ x :: r) with (t ++ [x] ++ r).
  by rewrite app_assoc, drop_app_add.
Qed.

(** Once the first [n] separators are terminators, each of the first [n]
    fields is the C string at its offset. *)
Lemma nul_seps_read_back n b k t :
  entry_fields b !! k = Some t → (k < n)%nat →
  cstring (drop (field_offset (entry_fields b) k) (nul_seps n b)) = t ∧
  (field_offset (entry_fields b) k ≤ length (nul_seps n b))%nat.
Proof.
  revert n b. induction k as [|k IH]; intros n b Hk Hn.
  - pose proof (entry_fields_inv b) as Hb.
    destruct (entry_fields b) as [|t0 [|t1 ts]]; simplify_eq/=.
    + destruct Hb as (Hp & tail & -> & Ht).
      rewrite nul_seps_last by done. split; [by apply cstring_plain|lia].
    + destruct Hb as (Hp & cur & -> & _).
      destruct n as [|n]; [lia|]. rewrite nul_seps_sep by done.
      split; [|lia]. apply cstring_plain; [done|]. right. by eexists.
  - pose proof (entry_fields_inv b) as Hb.
    destruct (entry_fields b) as [|t0 [|t1 ts]] eqn:E; [done..|].
    destruct Hb as (Hp & cur & -> & Hcur).
    change ((t1 :: ts) !! k = Some t) in Hk.
    change (field_offset (t0 :: t1 :: ts) (S k))
      with (S (length t0) + field_offset (t1 :: ts) k)%nat.
    destruct n as [|n]; [lia|]. rewrite nul_seps_sep by done.
    rewrite drop_past_token. rewrite <- Hcur in Hk |- *.
    destruct (IH n cur Hk ltac:(lia)) as [H1 H2]. split; [done|].
    rewrite length_app. simpl. lia.
Qed.

(** The token behind a pointer that the parser left in the descriptor. *)
Lemma resolve_field m i b k t :
  slot m i = Some b → entry_fields b !! k = Some t → (k < 5)%nat →
  resolve (<[i := Some (nul_seps 5 b)]> m)
          (Some (Ptr (BEnt i) (field_offset (entry_fields b) k)))
  = CStr (string_of_list_ascii t).
Proof.
  intros Hs Hk Hlt.
  destruct (nul_seps_read_back 5 b k t Hk Hlt) as [H1 H2].
  erewrite resolve_slot; [|by eapply slot_insert_eq|done].
  by rewrite H1.
Qed.

Ltac read_back R :=
  etrans; [|exact R]; repeat f_equal; cbn [field_offset length]; lia.

Lemma parse_fields_format i vv fs :
  (length fs ≠ 3%nat → parse_fields i vv fs = format_fields i fs) ∧
  (length fs = 3%nat →
   ∃ v, format_fields i fs = Ok v ∧ flags v = 0 ∧ opts v = None ∧
        parse_fields i vv fs
        = Ok (Volume (sdev v) (path v) (drv v) (flags vv) (opts vv))).
Proof.
  destruct fs as [|a [|p [|d [|f rest]]]]; simpl; try done.
  - split; [done|]. intros _. eexists. split; [reflexivity|].
    cbn [flags opts sdev path drv]. repeat split.
    f_equal; f_equal; f_equal; f_equal; lia.
  - split; [|intros; lia]. intros _.
    destruct f as [|x f], rest as [|[|y o] rest]; simpl;
      f_equal; f_equal; f_equal; f_equal; lia.
Qed.

(** X1. The parser against the documented format.  Parsing the entry of a
    slot leaves the entry with its first five separators turned into
    terminators and the rest of the storage as it was.  When the entry does
    not have exactly three fields, the result is the descriptor that the
    format prescribes, or a failed assertion when there are fewer than
    three.  When it has exactly three, source, mount point and driver are
    those of the format, but the flags and the options are the ones that the
    descriptor held before the call, where the format prescribes 0 and no
    options. *)
Theorem fetch_against_format i m tr b vv :
  slot m i = Some b →
  ∃ r,
    vfscore_fstab_fetch_volume_args (Some (Ptr (BEnt i) 0)) vv (State m tr)
    = (r, State (<[i := Some (nul_seps 5 b)]> m) tr) ∧
    (length (entry_fields b) ≠ 3%nat → r = format_fields i (entry_fields b)) ∧
    (length (entry_fields b) = 3%nat →
     ∃ v, format_fields i (entry_fields b) = Ok v ∧
          flags v = 0 ∧ opts v = None ∧
          r = Ok (Volume (sdev v) (path v) (drv v) (flags vv) (opts vv))).
Proof.
  intros Hs. eexists. split; [by apply fetch_volume_args_fields|].
  apply parse_fields_format.
Qed.

Lemma fetch_against_format_witness :
  vfscore_fstab_fetch_volume_args (Some (Ptr (BEnt 1) 0))
    (Volume None None None 0x10 (Some (Ptr (BEnt 0) 15)))
    (boot ["sda0:/a:ext4:0x10:ro"; "sda1:/mnt:ext4"]%string)
  = (Ok (Volume (Some (Ptr (BEnt 1) 0)) (Some (Ptr (BEnt 1) 5))
                (Some (Ptr (BEnt 1) 10)) 0x10 (Some (Ptr (BEnt 0) 15))),
     State [entry "sda0:/a:ext4:0x10:ro";
            Some (list_ascii_of_string "sda1" ++ NUL ::
                  list_ascii_of_string "/mnt" ++ NUL ::
                  list_ascii_of_string "ext4")] []).
Proof.
  destruct (fetch_against_format 1
              (entry <$> ["sda0:/a:ext4:0x10:ro"; "sda1:/mnt:ext4"]%string) []
              (list_ascii_of_string "sda1:/mnt:ext4")
              (Volume None None None 0x10 (Some (Ptr (BEnt 0) 15))))
    as (r & Hrun & _ & H3); [reflexivity|].
  destruct H3 as (v & Hv & _ & _ & ->); [reflexivity|].
  vm_compute in Hv. injection Hv as <-. exact Hrun.
Defined.

(** The two sides of it, run: a five-field entry parses to what the format
    prescribes; a three-field entry keeps the flags and the options of the
    descriptor it is parsed into. *)
Example fetch_against_format_runs :
  (vfscore_fstab_fetch_volume_args (Some (Ptr (BEnt 0) 0)) vv_junk
     (boot ["sda0:/mnt:ext4:1:ro:x:y"%string])).1
  = format_fields 0 (entry_fields
                       (list_ascii_of_string "sda0:/mnt:ext4:1:ro:x:y")) ∧
  format_fields 0 (entry_fields
                     (list_ascii_of_string "sda0:/mnt:ext4:1:ro:x:y"))
  = Ok (Volume (Some (Ptr (BEnt 0) 0)) (Some (Ptr (BEnt 0) 5))
               (Some (Ptr (BEnt 0) 10)) 1 (Some (Ptr (BEnt 0) 17))) ∧
  (vfscore_fstab_fetch_volume_args (Some (Ptr (BEnt 0) 0))
     (Volume None None None 0x10 (Some (Ptr (BLit "ro") 0)))
     (boot ["sda1:/mnt:ext4"%string])).1
  = Ok (Volume (Some (Ptr (BEnt 0) 0)) (Some (Ptr (BEnt 0) 5))
               (Some (Ptr (BEnt 0) 10)) 0x10 (Some (Ptr (BLit "ro") 0))) ∧
  format_fields 0 (entry_fields (list_ascii_of_string "sda1:/mnt:ext4"))
  = Ok (Volume (Some (Ptr (BEnt 0) 0)) (Some (Ptr (BEnt 0) 5))
               (Some (Ptr (BEnt 0) 10)) 0 None).
Proof. vm_compute. done. Qed.

(** X2. The mandatory fields read back: after parsing an entry with at
    least three fields, the source, the mount point and the driver of the
    descriptor are the C strings of the first, second and third field. *)
Theorem fetch_mandatory_fields_read_back i m tr b vv a p d rest :
  slot m i = Some b → entry_fields b = a :: p :: d :: rest →
  ∃ vv' m',
    vfscore_fstab_fetch_volume_args (Some (Ptr (BEnt i) 0)) vv (State m tr)
    = (Ok vv', State m' tr) ∧
    resolve m' (sdev vv') = CStr (string_of_list_ascii a) ∧
    resolve m' (path vv') = CStr (string_of_list_ascii p) ∧
    resolve m' (drv vv') = CStr (string_of_list_ascii d).
Proof.
  intros Hs Hf. rewrite (fetch_volume_args_fields i m tr b vv Hs).
  pose proof (resolve_field m i b 0 a Hs) as R0.
  pose proof (resolve_field m i b 1 p Hs) as R1.
  pose proof (resolve_field m i b 2 d Hs) as R2.
  rewrite Hf in *.
  specialize (R0 eq_refl ltac:(lia)).
  specialize (R1 eq_refl ltac:(lia)).
  specialize (R2 eq_refl ltac:(lia)).
  destruct rest as [|f rest]; (eexists _, _; split; [reflexivity|]);
    cbn [sdev path drv]; (split; [|split]);
    [read_back R0 | read_back R1 | read_back R2
    |read_back R0 | read_back R1 | read_back R2].
Qed.

Lemma fetch_mandatory_fields_read_back_witness :
  ∃ vv' m',
    vfscore_fstab_fetch_volume_args (Some (Ptr (BEnt 0) 0)) vv_junk
      (boot ["sda0:/mnt:ext4"%string])
    = (Ok vv', State m' []) ∧
    resolve m' (sdev vv') = CStr "sda0" ∧
    resolve m' (path vv') = CStr "/mnt" ∧
    resolve m' (drv vv') = CStr "ext4".
Proof.
  refine (fetch_mandatory_fields_read_back 0
            (entry <$> ["sda0:/mnt:ext4"%string]) []
            (list_ascii_of_string "sda0:/mnt:ext4") vv_junk
            (list_ascii_of_string "sda0") (list_ascii_of_string "/mnt")
            (list_ascii_of_string "ext4") [] _ _); reflexivity.
Defined.

(** X3. The options stop at the fifth separator: for an entry with a fifth
    field that is not empty, the options of the descriptor are that field
    alone, whatever follows it; a colon inside the options cuts them. *)
Theorem fetch_options_are_fifth_field i m tr b vv a p d f o rest :
  slot m i = Some b → entry_fields b = a :: p :: d :: f :: o :: rest →
  o ≠ [] →
  ∃ vv' m',
    vfscore_fstab_fetch_volume_args (Some (Ptr (BEnt i) 0)) vv (State m tr)
    = (Ok vv', State m' tr) ∧
    resolve m' (opts vv') = CStr (string_of_list_ascii o).
Proof.
  intros Hs Hf Ho. rewrite (fetch_volume_args_fields i m tr b vv Hs).
  pose proof (resolve_field m i b 4 o Hs) as R4.
  rewrite Hf in *. specialize (R4 eq_refl ltac:(lia)).
  destruct o as [|x o]; [done|].
  eexists _, _; split; [reflexivity|]. cbn [opts]. read_back R4.
Qed.

Lemma fetch_options_are_fifth_field_witness :
  ∃ vv' m',
    vfscore_fstab_fetch_volume_args (Some (Ptr (BEnt 0) 0)) vv_junk
      (boot ["sda0:/mnt:9pfs:0:trans=virtio:version=9p2000"%string])
    = (Ok vv', State m' []) ∧
    resolve m' (opts vv') = CStr "trans=virtio".
Proof.
  refine (fetch_options_are_fifth_field 0
            (entry <$> ["sda0:/mnt:9pfs:0:trans=virtio:version=9p2000"%string])
            [] (list_ascii_of_string
                  "sda0:/mnt:9pfs:0:trans=virtio:version=9p2000") vv_junk
            (list_ascii_of_string "sda0") (list_ascii_of_string "/mnt")
            (list_ascii_of_string "9pfs") (list_ascii_of_string "0")
            (list_ascii_of_string "trans=virtio")
            [list_ascii_of_string "version=9p2000"] _ _ _);
    [reflexivity | reflexivity | discriminate].
Defined.

(** ** The tokenizer *)

(** X4. The contract of vfscore_fstab_next_volume_arg() at a cursor inside
    an entry: it returns the cursor itself, which from then on is the C
    string of the first field of what was left; when a separator follows
    that field it becomes a terminator and the cursor moves behind it,
    otherwise the cursor becomes a null pointer; no other byte changes. *)
Theorem next_volume_arg_contract i m tr pre cur t ts :
  slot m i = Some (pre ++ cur) → entry_fields cur = t :: ts →
  let here := Ptr (BEnt i) (length pre) in
  let m' := <[i := Some (pre ++ nul_seps 1 cur)]> m in
  vfscore_fstab_next_volume_arg (Some here) (State m tr)
  = (Ok (Some here,
         match ts with
         | [] => None
         | _ :: _ => Some (Ptr (BEnt i) (length pre + S (length t)))
         end),
     State m' tr) ∧
  cstring_at m' here = Some t.
Proof.
  intros Hs Hf here m'.
  assert (Hread : ∀ x, nul_seps 1 cur = x → cstring x = t →
                       cstring_at m' here = Some t).
  { intros x Hx Hc. unfold cstring_at, deref, m', here. simpl.
    erewrite slot_insert_eq by done.
    rewrite decide_True by (rewrite length_app; lia).
    by rewrite drop_app_length, Hx, Hc. }
  subst here m'.
  pose proof (entry_fields_inv cur) as Hcur. rewrite Hf in Hcur.
  destruct ts as [|t' ts].
  - destruct Hcur as (Hp & tail & -> & Ht). split.
    + rewrite (next_volume_arg_last i m tr pre t tail Hs Hp Ht).
      by rewrite nul_seps_last, (slot_insert_id _ _ _ Hs).
    + eapply Hread; [by apply nul_seps_last|by apply cstring_plain].
  - destruct Hcur as (Hp & cur' & -> & _). split.
    + rewrite (next_volume_arg_sep i m tr pre t cur' Hs Hp).
      rewrite nul_seps_sep, nul_seps_0 by done.
      replace (length (pre ++ t ++ [NUL]))
        with (length pre + S (length t))%nat
        by (rewrite !length_app; simpl; lia).
      by rewrite <- !app_assoc.
    + eapply Hread; [by apply nul_seps_sep|].
      apply cstring_plain; [done|]. right. by eexists.
Qed.

Lemma next_volume_arg_contract_witness :
  let m := entry <$> ["sda0:/mnt:ext4"%string] in
  let here := Ptr (BEnt 0) 5 in
  let m' := <[0%nat := Some (list_ascii_of_string "sda0:"
                             ++ nul_seps 1 (list_ascii_of_string "/mnt:ext4"))]>
              m in
  vfscore_fstab_next_volume_arg (Some here) (State m [])
  = (Ok (Some here, Some (Ptr (BEnt 0) 10)), State m' []) ∧
  cstring_at m' here = Some (list_ascii_of_string "/mnt").
Proof.
  refine (next_volume_arg_contract 0 (entry <$> ["sda0:/mnt:ext4"%string]) []
            (list_ascii_of_string "sda0:") (list_ascii_of_string "/mnt:ext4")
            (list_ascii_of_string "/mnt") [list_ascii_of_string "ext4"] _ _);
    reflexivity.
Defined.

(** ** A table is parsed once *)

Lemma entry_fields_after_parse n b :
  length (entry_fields (nul_seps (S n) b)) = 1%nat.
Proof.
  pose proof (entry_fields_inv b) as Hb.
  destruct (entry_fields b) as [|t [|t' ts]] eqn:E; [done| |].
  - destruct Hb as (Hp & tail & -> & Ht).
    by rewrite nul_seps_last, E.
  - destruct Hb as (Hp & cur & -> & _).
    rewrite nul_seps_sep by done. unfold entry_fields.
    rewrite cstring_plain by (done || right; by eexists).
    by rewrite fields_plain.
Qed.

(** The loop leaves the slots before its starting slot alone. *)
Lemma fstab_volumes_from_below c w n i vv s j :
  (j < i)%nat →
  slot (vfscore_fstab (fstab_volumes_from c w n i vv s).2) j
  = slot (vfscore_fstab s) j.
Proof.
  revert i vv s. induction n as [|n IH]; intros i vv s Hj; simpl; [done|].
  destruct (slot (vfscore_fstab s) i) as [b|] eqn:Hs; [|done].
  pose proof (fstab_volume_slot_ne c w i vv s b j Hs ltac:(lia)) as Hne.
  unfold bind.
  destruct (fstab_volume c w i vv s) as [[[rc vv']| |] s']; simpl in *;
    [|done..].
  case_decide; simpl; [done|]. rewrite IH by lia. done.
Qed.

(** X5. Phase B cannot be run twice over the same table: after any run
    over a table whose first slot is set, a second run ends in a failed
    UK_ASSERT at the first entry, without a call to any collaborator. *)
Theorem fstab_volumes_second_run_asserts c w s b :
  CONFIG_LIBVFSCORE_FSTAB c = true →
  (0 < CONFIG_LIBVFSCORE_FSTAB_SIZE c)%nat →
  slot (vfscore_fstab s) 0 = Some b →
  let s1 := (vfscore_automount_fstab_volumes c w s).2 in
  let r := vfscore_automount_fstab_volumes c w s1 in
  r.1 = AssertFail ∧ trace r.2 = trace s1.
Proof.
  intros Hc Hn Hs s1 r. subst r.
  assert (H1 : slot (vfscore_fstab s1) 0 = Some (nul_seps 5 b)).
  { subst s1. unfold vfscore_automount_fstab_volumes. rewrite Hc.
    destruct (CONFIG_LIBVFSCORE_FSTAB_SIZE c) as [|n]; [lia|]. simpl.
    rewrite Hs. unfold bind.
    pose proof (fstab_volume_mem c w 0 (w_stack_vv w) s b Hs) as Hm.
    assert (H0 : slot (<[0%nat := Some (nul_seps 5 b)]> (vfscore_fstab s)) 0
                 = Some (nul_seps 5 b)) by by eapply slot_insert_eq.
    destruct (fstab_volume c w 0 (w_stack_vv w) s) as [[[rc vv']| |] s'];
      simpl in *; [|by rewrite Hm..].
    case_decide; simpl; [by rewrite Hm|].
    rewrite fstab_volumes_from_below by lia. by rewrite Hm. }
  clearbody s1. destruct s1 as [m1 tr1]. simpl in H1.
  unfold vfscore_automount_fstab_volumes. rewrite Hc.
  destruct (CONFIG_LIBVFSCORE_FSTAB_SIZE c) as [|n]; [lia|].
  assert (Hrun :
    fstab_volumes_from c w (S n) 0 (w_stack_vv w) (State m1 tr1)
    = (AssertFail,
       State (<[0%nat := Some (nul_seps 5 (nul_seps 5 b))]> m1) tr1)).
  { simpl. rewrite H1. unfold bind at 1. unfold fstab_volume.
    unfold bind at 1.
    rewrite (fetch_volume_args_fields 0 m1 tr1 _ _ H1).
    pose proof (entry_fields_after_parse 4 b) as Hlen.
    destruct (entry_fields (nul_seps 5 b)) as [|t [|t' ts]];
      simpl in Hlen; try lia.
    done. }
  by rewrite Hrun.
Qed.

Lemma fstab_volumes_second_run_asserts_witness :
  let s1 := (vfscore_automount_fstab_volumes cfg_noroot world_ok
               (boot ["sda0:/mnt:ext4"%string])).2 in
  let r := vfscore_automount_fstab_volumes cfg_noroot world_ok s1 in
  r.1 = AssertFail ∧ trace r.2 = trace s1.
Proof.
  refine (fstab_volumes_second_run_asserts cfg_noroot world_ok
            (boot ["sda0:/mnt:ext4"%string])
            (list_ascii_of_string "sda0:/mnt:ext4") _ _ _);
    [reflexivity | simpl; lia | reflexivity].
Defined.

(** ** Mounting an initial ramdisk *)

Lemma do_mount_initrd_eq w initrd len p s :
  let m := vfscore_fstab s in
  let dir := resolve m (Some p) in
  let rc1 := to_int (w_mount w (trace s) (CStr "") dir (CStr "ramfs") 0
                             CNull) in
  let t1 := trace s ++ [EvMount (CStr "") dir (CStr "ramfs") 0 CNull rc1] in
  let rc2 := to_int (w_ukcpio_extract w t1 dir initrd len) in
  do_mount_initrd w initrd len (Some p) s
  = if decide (rc1 ≠ 0) then (Ok (-1), State m t1)
    else (Ok (if decide (rc2 ≠ 0) then -1 else 0),
          State m (t1 ++ [EvCpioExtract dir initrd len rc2])).
Proof.
  intros m dir rc1 t1 rc2. subst m dir rc1 t1 rc2.
  unfold do_mount_initrd, bind, UK_ASSERT, mount, ukcpio_extract, ret.
  cbn -[resolve to_int].
  destruct (decide (_ ≠ 0)); [done|]. cbn -[resolve to_int].
  by destruct (decide (_ ≠ 0)).
Qed.

(** X6. do_mount_initrd() mounts a ramfs at the path, with an empty source,
    no flags and no options, and extracts the archive only when that mount
    returned 0.  It returns 0 when both calls returned 0 and -1 otherwise,
    whatever the status that failed was, and makes no call after a failure;
    the ramfs stays mounted when the extraction fails.  With a null path it
    ends in a failed UK_ASSERT before any call. *)
Theorem do_mount_initrd_outcomes w initrd len s :
  do_mount_initrd w initrd len None s = (AssertFail, s) ∧
  ∀ p, ∃ rc rc1 evs,
    let dir := resolve (vfscore_fstab s) (Some p) in
    do_mount_initrd w initrd len (Some p) s
    = (Ok rc,
       State (vfscore_fstab s)
             (trace s ++ EvMount (CStr "") dir (CStr "ramfs") 0 CNull rc1
                         :: evs)) ∧
    (rc = 0 ∨ rc = -1) ∧
    (rc1 ≠ 0 → rc = -1 ∧ evs = []) ∧
    (rc1 = 0 →
     ∃ rc2, evs = [EvCpioExtract dir initrd len rc2] ∧ (rc = 0 ↔ rc2 = 0)).
Proof.
  split; [done|]. intros p.
  pose proof (do_mount_initrd_eq w initrd len p s) as E. cbv zeta in E.
  set (dir := resolve (vfscore_fstab s) (Some p)) in *.
  set (rc1 := to_int (w_mount _ _ _ _ _ _ _)) in *.
  set (rc2 := to_int (w_ukcpio_extract _ _ _ _ _)) in *.
  destruct (decide (rc1 ≠ 0)) as [H1|H1].
  - exists (-1), rc1, []. split; [exact E|]. split; [by right|].
    split; [done|]. intros ?. done.
  - exists (if decide (rc2 ≠ 0) then -1 else 0), rc1,
      [EvCpioExtract dir initrd len rc2].
    split; [by rewrite E, <- app_assoc|].
    split; [case_decide; auto|]. split; [done|]. intros _.
    exists rc2. split; [done|]. case_decide; split; intros; try done; lia.
Qed.

(** ** Drivers that start with "initrd" *)

Lemma uchar_inj c1 c2 : Libc.uchar c1 - Libc.uchar c2 = 0 → c1 = c2.
Proof.
  unfold Libc.uchar. intros H.
  assert (Hn : nat_of_ascii c1 = nat_of_ascii c2) by lia.
  by rewrite <- (ascii_nat_embedding c1), Hn, ascii_nat_embedding.
Qed.

Lemma strncmp_initrd l :
  Libc.strncmp l (list_ascii_of_string "initrd") 6 = 0 ↔ initrd_driver l.
Proof.
  unfold initrd_driver. split.
  - intros H.
    do 6 (destruct l as [|? l];
          [by apply uchar_inj in H|];
          cbn [Libc.strncmp hd tl list_ascii_of_string] in H;
          match type of H with
          | context [decide (?x = ?y)] =>
              destruct (decide (x = y)) as [->|];
                [|by apply uchar_inj in H]
          end;
          match type of H with
          | context [decide (?x = NUL)] =>
              destruct (decide (x = NUL)) as [|]; [done|]
          end).
    done.
  - intros H. do 6 (destruct l as [|? l]; [done|]). by simplify_eq/=.
Qed.

#[local] Instance initrd_driver_dec l : Decision (initrd_driver l).
Proof. unfold initrd_driver. apply _. Qed.

(** ** One turn of the loop *)

Lemma read_cstring_field m i tr b k t :
  slot m i = Some b → entry_fields b !! k = Some t → (k < 5)%nat →
  let s' := State (<[i := Some (nul_seps 5 b)]> m) tr in
  read_cstring (Ptr (BEnt i) (field_offset (entry_fields b) k)) s'
  = (Ok t, s').
Proof.
  intros Hs Hk Hlt s'. subst s'.
  destruct (nul_seps_read_back 5 b k t Hk Hlt) as [H1 H2].
  unfold read_cstring, cstring_at, deref. simpl.
  erewrite slot_insert_eq by done.
  by rewrite decide_True, H1.
Qed.

(** A turn is the parse of the entry followed by one of the two mounts,
    chosen by the driver field. *)
Lemma fstab_volume_parsed c w i vv m tr b a p d rest :
  slot m i = Some b → entry_fields b = a :: p :: d :: rest →
  let m' := <[i := Some (nul_seps 5 b)]> m in
  ∃ vv',
    parse_fields i vv (entry_fields b) = Ok vv' ∧
    resolve m' (sdev vv') = CStr (string_of_list_ascii a) ∧
    resolve m' (path vv') = CStr (string_of_list_ascii p) ∧
    resolve m' (drv vv') = CStr (string_of_list_ascii d) ∧
    is_Some (path vv') ∧
    fstab_volume c w i vv (State m tr)
    = (let* rc :=
         if cpio_and_ramfs c && bool_decide (initrd_driver d)
         then vfscore_mount_initrd_volume w vv'
         else vfscore_mount_volume w vv' in
       ret (rc, vv')) (State m' tr).
Proof.
  intros Hs Hf m'.
  pose proof (resolve_field m i b 0 a Hs) as R0.
  pose proof (resolve_field m i b 1 p Hs) as R1.
  pose proof (resolve_field m i b 2 d Hs) as R2.
  pose proof (read_cstring_field m i tr b 2 d Hs) as Rd.
  rewrite Hf in R0, R1, R2, Rd.
  specialize (R0 eq_refl ltac:(lia)).
  specialize (R1 eq_refl ltac:(lia)).
  specialize (R2 eq_refl ltac:(lia)).
  specialize (Rd eq_refl ltac:(lia)). cbv zeta in Rd.
  assert (∃ fl op,
    parse_fields i vv (entry_fields b)
    = Ok (Volume (Some (Ptr (BEnt i) 0))
                 (Some (Ptr (BEnt i) (field_offset (a :: p :: d :: rest) 1)))
                 (Some (Ptr (BEnt i) (field_offset (a :: p :: d :: rest) 2)))
                 fl op)) as (fl & op & Hparse).
  { rewrite Hf. destruct rest as [|f rest]; eexists _, _; simpl;
      repeat f_equal; lia. }
  eexists. split; [exact Hparse|]. cbn [sdev path drv].
  split; [exact R0|]. split; [exact R1|]. split; [exact R2|].
  split; [by eexists|].
  unfold fstab_volume.
  erewrite bind_Ok
    by (rewrite (fetch_volume_args_fields i m tr b vv Hs), Hparse; done).
  fold m'. cbn [drv].
  destruct (cpio_and_ramfs c); [|done].
  assert (Hroute :
    (let* r := strncmp
                 (Some (Ptr (BEnt i) (field_offset (a :: p :: d :: rest) 2)))
                 "initrd" (String.length "initrd") in
     ret (bool_decide (r = 0))) (State m' tr)
    = (Ok (bool_decide (initrd_driver d)), State m' tr)).
  { unfold strncmp.
    erewrite bind_Ok; [|erewrite bind_Ok by exact Rd; reflexivity].
    unfold ret. do 2 f_equal. apply bool_decide_ext, strncmp_initrd. }
  by erewrite bind_Ok by exact Hroute.
Qed.

Lemma mount_initrd_volume_eq w vv s :
  let found := w_find_initrd0 w (trace s) in
  let r0 := to_int found.1 in
  let s1 := State (vfscore_fstab s)
                  (trace s ++ [EvFindInitrd0 r0 found.2.1
                                             (to_ulong found.2.2)]) in
  vfscore_mount_initrd_volume w vv s
  = if decide (r0 < 0) then (Ok (-1), s1)
    else do_mount_initrd w found.2.1 (to_ulong found.2.2) (path vv) s1.
Proof.
  intros found r0 s1. subst found r0 s1.
  unfold vfscore_mount_initrd_volume, bind, ukplat_memregion_find_initrd0.
  destruct (w_find_initrd0 w (trace s)) as [rc [vbase len]].
  cbn -[to_int to_ulong do_mount_initrd]. by case_decide.
Qed.

(** X7. A turn of the loop for an entry whose driver starts with "initrd",
    in a build with initrd support: the initial ramdisk is looked up; when
    there is none the turn returns -1 without a mount; otherwise a ramfs is
    mounted at the mount point of the entry, with an empty source, flags 0
    and no options, and the ramdisk found is extracted there.  The source,
    the flags and the options of the entry reach no call, and the status is
    0 or -1. *)
Theorem fstab_volume_initrd_entry c w i vv s b a p d rest :
  cpio_and_ramfs c = true →
  slot (vfscore_fstab s) i = Some b →
  entry_fields b = a :: p :: d :: rest → initrd_driver d →
  let m' := <[i := Some (nul_seps 5 b)]> (vfscore_fstab s) in
  let dir := CStr (string_of_list_ascii p) in
  ∃ rc vv' r0 vbase len evs,
    let find := EvFindInitrd0 r0 vbase len in
    let ramfs := EvMount (CStr "") dir (CStr "ramfs") 0 CNull in
    fstab_volume c w i vv s = (Ok (rc, vv'), State m' (trace s ++ evs)) ∧
    ((r0 < 0 ∧ rc = -1 ∧ evs = [find]) ∨
     (0 ≤ r0 ∧ ∃ rc1, rc1 ≠ 0 ∧ rc = -1 ∧ evs = [find; ramfs rc1]) ∨
     (0 ≤ r0 ∧ ∃ rc2,
        rc = (if decide (rc2 = 0) then 0 else -1) ∧
        evs = [find; ramfs 0; EvCpioExtract dir vbase len rc2])).
Proof.
  intros Hc Hs Hf Hd m' dir. destruct s as [m tr]. simpl in Hs, m'.
  destruct (fstab_volume_parsed c w i vv m tr b a p d rest Hs Hf)
    as (vv' & _ & _ & Rp & _ & [pp Hpp] & Hturn).
  fold m' in Rp, Hturn. rewrite Hturn, Hc, bool_decide_eq_true_2 by done.
  cbn [andb trace]. unfold bind at 1.
  rewrite mount_initrd_volume_eq. cbv zeta. cbn [vfscore_fstab trace].
  set (found := w_find_initrd0 w tr).
  set (r0 := to_int found.1).
  set (find := EvFindInitrd0 r0 found.2.1 (to_ulong found.2.2)).
  destruct (decide (r0 < 0)) as [Hr|Hr].
  { exists (-1), vv', r0, found.2.1, (to_ulong found.2.2), [find].
    split; [done|]. by left. }
  rewrite Hpp, do_mount_initrd_eq. cbv zeta. cbn [vfscore_fstab trace].
  rewrite <- Hpp, Rp. fold dir.
  set (rc1 := to_int (w_mount _ _ _ _ _ _ _)).
  set (rc2 := to_int (w_ukcpio_extract _ _ _ _ _)).
  destruct (decide (rc1 ≠ 0)) as [H1|H1].
  { exists (-1), vv', r0, found.2.1, (to_ulong found.2.2),
      [find; EvMount (CStr "") dir (CStr "ramfs") 0 CNull rc1].
    split; [by rewrite <- app_assoc|]. right. left.
    split; [lia|]. by exists rc1. }
  assert (rc1 = 0) as Hz by lia. rewrite Hz.
  exists (if decide (rc2 = 0) then 0 else -1), vv', r0, found.2.1,
    (to_ulong found.2.2),
    [find; EvMount (CStr "") dir (CStr "ramfs") 0 CNull 0;
     EvCpioExtract dir found.2.1 (to_ulong found.2.2) rc2].
  split.
  - rewrite <- !app_assoc. simpl. by do 2 case_decide.
  - right. right. split; [lia|]. by exists rc2.
Qed.

Lemma fstab_volume_initrd_entry_witness :
  let s := boot ["none:/data:initrd0:0x10:ro"%string] in
  let m' := <[0%nat := Some (nul_seps 5 (list_ascii_of_string
                                          "none:/data:initrd0:0x10:ro"))]>
              (vfscore_fstab s) in
  let dir := CStr "/data" in
  ∃ rc vv' r0 vbase len evs,
    let find := EvFindInitrd0 r0 vbase len in
    let ramfs := EvMount (CStr "") dir (CStr "ramfs") 0 CNull in
    fstab_volume cfg_noroot world_initrd 0 vv_junk s
    = (Ok (rc, vv'), State m' (trace s ++ evs)) ∧
    ((r0 < 0 ∧ rc = -1 ∧ evs = [find]) ∨
     (0 ≤ r0 ∧ ∃ rc1, rc1 ≠ 0 ∧ rc = -1 ∧ evs = [find; ramfs rc1]) ∨
     (0 ≤ r0 ∧ ∃ rc2,
        rc = (if decide (rc2 = 0) then 0 else -1) ∧
        evs = [find; ramfs 0; EvCpioExtract dir vbase len rc2])).
Proof.
  refine (fstab_volume_initrd_entry cfg_noroot world_initrd 0 vv_junk
            (boot ["none:/data:initrd0:0x10:ro"%string])
            (list_ascii_of_string "none:/data:initrd0:0x10:ro")
            (list_ascii_of_string "none") (list_ascii_of_string "/data")
            (list_ascii_of_string "initrd0")
            [list_ascii_of_string "0x10"; list_ascii_of_string "ro"]
            _ _ _ _); reflexivity.
Defined.

(** The same turn, run. *)
Example initrd_entry_run :
  (fstab_volume cfg_noroot world_initrd 0 vv_junk
     (boot ["none:/data:initrd0:0x10:ro"%string])).1
  = Ok (0, Volume (Some (Ptr (BEnt 0) 0)) (Some (Ptr (BEnt 0) 5))
                  (Some (Ptr (BEnt 0) 11)) 0x10 (Some (Ptr (BEnt 0) 24))) ∧
  trace (fstab_volume cfg_noroot world_initrd 0 vv_junk
           (boot ["none:/data:initrd0:0x10:ro"%string])).2
  = EvFindInitrd0 0 0x1000 64 :: initrd_events (CStr "/data") 0x1000 64.
Proof. vm_compute. done. Qed.

(** X8. A turn of the loop for any other entry with its three mandatory
    fields (the driver does not start with "initrd", or the build has no
    initrd support): exactly one call to mount(2), carrying the source, the
    mount point and the driver of the entry and the flags and options of
    the parsed descriptor; the turn returns the status of that call. *)
Theorem fstab_volume_generic_entry c w i vv s b a p d rest :
  slot (vfscore_fstab s) i = Some b →
  entry_fields b = a :: p :: d :: rest →
  cpio_and_ramfs c = false ∨ ¬ initrd_driver d →
  let m' := <[i := Some (nul_seps 5 b)]> (vfscore_fstab s) in
  ∃ vv' rc,
    let call := EvMount (CStr (string_of_list_ascii a))
                        (CStr (string_of_list_ascii p))
                        (CStr (string_of_list_ascii d))
                        (flags vv') (resolve m' (opts vv')) in
    parse_fields i vv (entry_fields b) = Ok vv' ∧
    rc = to_int (w_mount w (trace s) (CStr (string_of_list_ascii a))
                         (CStr (string_of_list_ascii p))
                         (CStr (string_of_list_ascii d))
                         (flags vv') (resolve m' (opts vv'))) ∧
    fstab_volume c w i vv s
    = (Ok (rc, vv'), State m' (trace s ++ [call rc])).
Proof.
  intros Hs Hf Hd m'. destruct s as [m tr]. simpl in Hs, m'.
  destruct (fstab_volume_parsed c w i vv m tr b a p d rest Hs Hf)
    as (vv' & Hparse & Ra & Rp & Rd & _ & Hturn).
  fold m' in Ra, Rp, Rd, Hturn.
  eexists vv', _. split; [exact Hparse|]. split; [reflexivity|].
  rewrite Hturn.
  replace (cpio_and_ramfs c && bool_decide (initrd_driver d)) with false.
  2: { destruct Hd as [->|Hd]; [done|].
       by rewrite bool_decide_eq_false_2, andb_false_r. }
  unfold bind, vfscore_mount_volume, mount, ret.
  cbn [vfscore_fstab trace]. by rewrite Ra, Rp, Rd.
Qed.

Lemma fstab_volume_generic_entry_witness :
  let s := boot ["sda0:/mnt:ext4:0x10:ro"%string] in
  let m' := <[0%nat := Some (nul_seps 5 (list_ascii_of_string
                                          "sda0:/mnt:ext4:0x10:ro"))]>
              (vfscore_fstab s) in
  ∃ vv' rc,
    let call := EvMount (CStr "sda0") (CStr "/mnt") (CStr "ext4")
                        (flags vv') (resolve m' (opts vv')) in
    parse_fields 0 vv_junk
      (entry_fields (list_ascii_of_string "sda0:/mnt:ext4:0x10:ro"))
    = Ok vv' ∧
    rc = to_int (w_mount world_ok (trace s) (CStr "sda0") (CStr "/mnt")
                         (CStr "ext4") (flags vv') (resolve m' (opts vv'))) ∧
    fstab_volume cfg_noroot world_ok 0 vv_junk s
    = (Ok (rc, vv'), State m' (trace s ++ [call rc])).
Proof.
  refine (fstab_volume_generic_entry cfg_noroot world_ok 0 vv_junk
            (boot ["sda0:/mnt:ext4:0x10:ro"%string])
            (list_ascii_of_string "sda0:/mnt:ext4:0x10:ro")
            (list_ascii_of_string "sda0") (list_ascii_of_string "/mnt")
            (list_ascii_of_string "ext4")
            [list_ascii_of_string "0x10"; list_ascii_of_string "ro"]
            _ _ _); [reflexivity | reflexivity | right; discriminate].
Defined.

(** ** Where the loop ends *)

(** X9. The loop ends at the first empty slot, or at the capacity of the
    table: when the mounts of the [k] entries before it all return 0,
    Phase B returns 0 in the state the last of these turns ends in, and the
    slots from [k] on are as they were; an entry behind an empty slot is
    never parsed. *)
Theorem fstab_volumes_stop_at_empty_slot c w s k vv sk :
  CONFIG_LIBVFSCORE_FSTAB c = true →
  (∀ j, (j < k)%nat → is_Some (slot (vfscore_fstab s) j)) →
  turns c w k 0 (w_stack_vv w) s = Some (vv, sk) →
  k = CONFIG_LIBVFSCORE_FSTAB_SIZE c
  ∨ (k < CONFIG_LIBVFSCORE_FSTAB_SIZE c)%nat
    ∧ slot (vfscore_fstab s) k = None →
  vfscore_automount_fstab_volumes c w s = (Ok 0, sk) ∧
  ∀ j, (k ≤ j)%nat →
       slot (vfscore_fstab sk) j = slot (vfscore_fstab s) j.
Proof.
  intros Hc Hset Hturns Hend.
  assert (Hset' : ∀ j, (0 ≤ j < 0 + k)%nat →
                       is_Some (slot (vfscore_fstab s) j)).
  { intros j Hj. apply Hset. lia. }
  destruct (turns_slots c w k 0 _ s vv sk Hset' Hturns) as [_ Hframe].
  split; [|intros j Hj; apply Hframe; lia].
  unfold vfscore_automount_fstab_volumes. rewrite Hc.
  destruct Hend as [<-|[Hk Hnone]].
  - rewrite <- (Nat.add_0_r k) at 1.
    by rewrite (fstab_volumes_from_turns c w k 0 0 _ s vv sk Hset' Hturns).
  - replace (CONFIG_LIBVFSCORE_FSTAB_SIZE c)
      with (k + S (CONFIG_LIBVFSCORE_FSTAB_SIZE c - S k))%nat by lia.
    rewrite (fstab_volumes_from_turns c w k _ 0 _ s vv sk Hset' Hturns).
    simpl. rewrite Hframe by lia. by rewrite Hnone.
Qed.

Lemma fstab_volumes_stop_at_empty_slot_witness :
  let s := State [entry "sda0:/a:ext4"; None; entry "sda2:/c:ext4"] [] in
  ∃ sk,
    mount_calls (trace sk)
    = [EvMount (CStr "sda0") (CStr "/a") (CStr "ext4") 0 CNull 0] ∧
    vfscore_automount_fstab_volumes cfg_noroot world_ok s = (Ok 0, sk) ∧
    ∀ j, (1 ≤ j)%nat →
         slot (vfscore_fstab sk) j = slot (vfscore_fstab s) j.
Proof.
  intros s. eexists. split; [|
    eapply (fstab_volumes_stop_at_empty_slot cfg_noroot world_ok s 1);
      [reflexivity
      |intros [|j] Hj; [by eexists|lia]
      |reflexivity
      |right; split; [simpl; lia|reflexivity]]].
  reflexivity.
Defined.

(** X10. An entry without its three mandatory fields stops the loop with a
    failed UK_ASSERT: when the mounts of the [k] entries before it returned
    0, Phase B ends in the failed assertion with the trace those turns
    left, so the entries before it stay mounted, and no later entry is
    touched. *)
Theorem fstab_volumes_malformed_entry c w s k vv sk b :
  CONFIG_LIBVFSCORE_FSTAB c = true →
  (k < CONFIG_LIBVFSCORE_FSTAB_SIZE c)%nat →
  (∀ j, (j < k)%nat → is_Some (slot (vfscore_fstab s) j)) →
  turns c w k 0 (w_stack_vv w) s = Some (vv, sk) →
  slot (vfscore_fstab s) k = Some b →
  (length (entry_fields b) < 3)%nat →
  let r := vfscore_automount_fstab_volumes c w s in
  r.1 = AssertFail ∧ trace r.2 = trace sk ∧
  ∀ j, (k < j)%nat →
       slot (vfscore_fstab r.2) j = slot (vfscore_fstab s) j.
Proof.
  intros Hc Hk Hset Hturns Hb Hlen r. subst r.
  assert (Hset' : ∀ j, (0 ≤ j < 0 + k)%nat →
                       is_Some (slot (vfscore_fstab s) j)).
  { intros j Hj. apply Hset. lia. }
  destruct (turns_slots c w k 0 _ s vv sk Hset' Hturns) as [_ Hframe].
  assert (Hbk : slot (vfscore_fstab sk) k = Some b)
    by (rewrite Hframe by lia; done).
  assert (Hrun :
    vfscore_automount_fstab_volumes c w s
    = (AssertFail,
       State (<[k := Some (nul_seps 5 b)]> (vfscore_fstab sk)) (trace sk))).
  { unfold vfscore_automount_fstab_volumes. rewrite Hc.
    replace (CONFIG_LIBVFSCORE_FSTAB_SIZE c)
      with (k + S (CONFIG_LIBVFSCORE_FSTAB_SIZE c - S k))%nat by lia.
    rewrite (fstab_volumes_from_turns c w k _ 0 _ s vv sk Hset' Hturns).
    simpl. rewrite Hbk. unfold bind at 1. unfold fstab_volume.
    unfold bind at 1. destruct sk as [mk trk]. simpl in Hbk.
    rewrite (fetch_volume_args_fields k mk trk b vv Hbk).
    assert (parse_fields k vv (entry_fields b) = AssertFail) as ->; [|done].
    destruct (entry_fields b) as [|? [|? [|? ?]]]; simpl in *; done || lia. }
  rewrite Hrun. simpl. split; [done|]. split; [done|].
  intros j Hj. rewrite slot_insert_ne by lia. apply Hframe. lia.
Qed.

Lemma fstab_volumes_malformed_entry_witness :
  let s := boot ["sda0:/a:ext4"; "sda1:/b"; "sda2:/c:ext4"]%string in
  let r := vfscore_automount_fstab_volumes cfg_noroot world_ok s in
  ∃ sk,
    trace sk = [EvMount (CStr "sda0") (CStr "/a") (CStr "ext4") 0 CNull 0] ∧
    r.1 = AssertFail ∧ trace r.2 = trace sk ∧
    ∀ j, (1 < j)%nat →
         slot (vfscore_fstab r.2) j = slot (vfscore_fstab s) j.
Proof.
  intros s r. eexists. split; [|
    eapply (fstab_volumes_malformed_entry cfg_noroot world_ok s 1 _ _
              (list_ascii_of_string "sda1:/b"));
      [reflexivity
      |simpl; lia
      |intros [|j] Hj; [by eexists|lia]
      |reflexivity
      |reflexivity
      |vm_compute; lia]].
  reflexivity.
Defined.

(** ** The root filesystem, the other ways *)

Lemma resolve_lit m x : resolve m (lit x) = literal x.
Proof.
  unfold resolve, lit, literal, cstring_at, deref.
  cbn [bytes_of p_blk p_off]. rewrite decide_True by lia.
  by rewrite drop_0.
Qed.

Lemma cstring_nonempty_first l : cstring l ≠ [] → nth 0 l NUL ≠ NUL.
Proof. destruct l as [|x l]; simpl; [done|]. by case_decide. Qed.

Lemma do_mount_initrd_root w base len s1 :
  let m := vfscore_fstab s1 in
  let ramfs := EvMount (CStr "") (CStr "/") (CStr "ramfs") 0 CNull in
  let rc1 := to_int (w_mount w (trace s1) (CStr "") (CStr "/") (CStr "ramfs")
                             0 CNull) in
  let t1 := trace s1 ++ [ramfs rc1] in
  let rc2 := to_int (w_ukcpio_extract w t1 (CStr "/") base len) in
  let t2 := t1 ++ [EvCpioExtract (CStr "/") base len rc2] in
  do_mount_initrd w base len (lit "/") s1
  = if decide (rc1 ≠ 0) then (Ok (-1), State m t1)
    else if decide (rc2 ≠ 0) then (Ok (-1), State m t2)
    else (Ok 0, State m t2).
Proof.
  cbv zeta. unfold lit. rewrite do_mount_initrd_eq. cbv zeta.
  change (resolve (vfscore_fstab s1) (Some (Ptr (BLit "/") 0)))
    with (CStr "/").
  by repeat case_decide.
Qed.

(** X11. The root from the configuration, for a driver that is not empty
    and is not sent to the initial ramdisk: one call to mount(2) at "/" with
    the configured device, driver, flags and options, an empty string
    standing for a device or for options that are not configured, and flags
    0 for flags that are not; the resolver returns the status of that call
    as it is. *)
Theorem rootfs_generic_mount c w s d :
  CONFIG_LIBVFSCORE_AUTOMOUNT_ROOTFS c = true →
  CONFIG_LIBVFSCORE_ROOTFS_EINITRD c = false →
  CONFIG_LIBVFSCORE_ROOTFS c = Some d →
  cstring (list_ascii_of_string d) ≠ [] →
  cpio_and_ramfs c = false
  ∨ ¬ initrd_driver (cstring (list_ascii_of_string d)) →
  let dev := literal (default ""%string (CONFIG_LIBVFSCORE_ROOTDEV c)) in
  let fl := match CONFIG_LIBVFSCORE_ROOTFLAGS c with
            | Some f => to_ulong f
            | None => 0
            end in
  let data := literal (default ""%string (CONFIG_LIBVFSCORE_ROOTOPTS c)) in
  let rc := to_int (w_mount w (trace s) dev (CStr "/") (literal d) fl data) in
  vfscore_automount_rootfs c w s
  = (Ok rc,
     State (vfscore_fstab s)
           (trace s ++ [EvMount dev (CStr "/") (literal d) fl data rc])).
Proof.
  intros Ha He Hd Hne Hroute dev fl data rc. subst dev fl data rc.
  unfold vfscore_automount_rootfs. rewrite Ha, He.
  unfold vfscore_automount_rootfs_config. cbn [drv path]. rewrite Hd.
  unfold lit at 1. cbv beta iota.
  erewrite bind_Ok; [|erewrite bind_Ok by apply load_lit; reflexivity].
  rewrite bool_decide_eq_false_2 by by apply cstring_nonempty_first.
  assert (Hr :
    (if cpio_and_ramfs c
     then let* r := strncmp (lit d) "initrd" (String.length "initrd") in
          ret (bool_decide (r = 0))
     else ret false) s = (Ok false, s)).
  { destruct Hroute as [->|Hn]; [done|].
    destruct (cpio_and_ramfs c); [|done].
    erewrite bind_Ok by apply strncmp_lit. unfold ret. do 2 f_equal.
    apply bool_decide_eq_false_2. by rewrite strncmp_initrd. }
  erewrite bind_Ok by exact Hr.
  unfold bind, vfscore_mount_volume, mount, ret.
  cbn [sdev path drv flags opts].
  change (resolve (vfscore_fstab s) (lit "/")) with (CStr "/").
  rewrite !resolve_lit.
  by destruct (CONFIG_LIBVFSCORE_ROOTDEV c),
              (CONFIG_LIBVFSCORE_ROOTOPTS c);
    rewrite !resolve_lit.
Qed.

Lemma rootfs_generic_mount_witness :
  vfscore_automount_rootfs cfg_ext4 world_ok (boot [])
  = (Ok 0,
     State [] [EvMount (CStr "vda") (CStr "/") (CStr "ext4") 0 (CStr "") 0]).
Proof.
  refine (rootfs_generic_mount cfg_ext4 world_ok (boot []) "ext4"%string
            _ _ _ _ _);
    [reflexivity | reflexivity | reflexivity | discriminate
    | right; discriminate].
Defined.

(** X12. The root from an initrd embedded in the image, call by call.
    Whatever the root configuration says, the resolver mounts a ramfs at
    "/", with an empty source, flags 0 and no options.  When that call
    returns a status other than 0, the resolver returns -1 and nothing is
    extracted.  Otherwise it extracts the bytes between
    vfscore_einitrd_start and vfscore_einitrd_end at "/", and returns 0 when
    the extraction returned 0 and -1 when it did not.  The orchestrator
    returns the -1 after the same calls and goes on to Phase B only after
    the 0. *)
Theorem rootfs_einitrd_outcomes c w s :
  CONFIG_LIBVFSCORE_AUTOMOUNT_ROOTFS c = true →
  CONFIG_LIBVFSCORE_ROOTFS_EINITRD c = true →
  let m := vfscore_fstab s in
  let base := vfscore_einitrd_start c in
  let len := to_ulong (vfscore_einitrd_end c - vfscore_einitrd_start c) in
  let ramfs := EvMount (CStr "") (CStr "/") (CStr "ramfs") 0 CNull in
  let rc1 := to_int (w_mount w (trace s) (CStr "") (CStr "/") (CStr "ramfs")
                             0 CNull) in
  let t1 := trace s ++ [ramfs rc1] in
  let rc2 := to_int (w_ukcpio_extract w t1 (CStr "/") base len) in
  let t2 := t1 ++ [EvCpioExtract (CStr "/") base len rc2] in
  vfscore_automount_rootfs c w s
  = (if decide (rc1 ≠ 0) then (Ok (-1), State m t1)
     else if decide (rc2 ≠ 0) then (Ok (-1), State m t2)
     else (Ok 0, State m t2)) ∧
  vfscore_automount c w s
  = (if decide (rc1 ≠ 0) then (Ok (-1), State m t1)
     else if decide (rc2 ≠ 0) then (Ok (-1), State m t2)
     else vfscore_automount_fstab_volumes c w (State m t2)).
Proof.
  intros Ha He m base len ramfs rc1 t1 rc2 t2.
  assert (Hroot : vfscore_automount_rootfs c w s
                  = do_mount_initrd w base len (lit "/") s).
  { unfold vfscore_automount_rootfs. by rewrite Ha, He. }
  pose proof (do_mount_initrd_root w base len s) as E. cbv zeta in E.
  fold m ramfs rc1 t1 rc2 t2 in E. rewrite <- Hroot in E.
  split; [exact E|].
  unfold vfscore_automount, bind. rewrite E.
  by repeat case_decide.
Qed.

Lemma rootfs_einitrd_outcomes_witness :
  vfscore_automount_rootfs cfg_einitrd world_ok (boot [])
  = (Ok 0, State [] [EvMount (CStr "") (CStr "/") (CStr "ramfs") 0 CNull 0;
                     EvCpioExtract (CStr "/") 0x2000 0x100 0]) ∧
  vfscore_automount cfg_einitrd world_ok (boot [])
  = vfscore_automount_fstab_volumes cfg_einitrd world_ok
      (State [] [EvMount (CStr "") (CStr "/") (CStr "ramfs") 0 CNull 0;
                 EvCpioExtract (CStr "/") 0x2000 0x100 0]).
Proof.
  refine (rootfs_einitrd_outcomes cfg_einitrd world_ok (boot []) _ _);
    reflexivity.
Defined.

(** The same build when the extraction fails: the ramfs has been mounted,
    the resolver and the orchestrator return -1. *)
Example einitrd_extraction_fails :
  let w := {| w_mount := λ _ _ _ _ _ _, 0;
              w_ukcpio_extract := λ _ _ _ _, -5;
              w_find_initrd0 := λ _, (-1, (0, 0));
              w_stack_vv := vv_junk |} in
  vfscore_automount cfg_einitrd w (boot ["sda0:/mnt:ext4"%string])
  = (Ok (-1),
     State [entry "sda0:/mnt:ext4"]
           [EvMount (CStr "") (CStr "/") (CStr "ramfs") 0 CNull 0;
            EvCpioExtract (CStr "/") 0x2000 0x100 (-5)]).
Proof. vm_compute. done. Qed.

(** X13. The root from the initial ramdisk that the platform reports (the
    root driver starts with "initrd", the build has initrd support, and the
    lookup does not fail), call by call.  After the lookup the resolver
    mounts a ramfs at "/", with an empty source, flags 0 and no options; the
    configured device, flags and options reach no call.  When that call
    returns a status other than 0, the resolver returns -1 and nothing is
    extracted.  Otherwise it extracts the region found at "/", and returns 0
    when the extraction returned 0 and -1 when it did not.  The orchestrator
    returns the -1 after the same calls and goes on to Phase B only after
    the 0. *)
Theorem rootfs_initrd_found c w s d :
  CONFIG_LIBVFSCORE_AUTOMOUNT_ROOTFS c = true →
  CONFIG_LIBVFSCORE_ROOTFS_EINITRD c = false →
  cpio_and_ramfs c = true →
  CONFIG_LIBVFSCORE_ROOTFS c = Some d →
  initrd_driver (cstring (list_ascii_of_string d)) →
  0 ≤ to_int (w_find_initrd0 w (trace s)).1 →
  let m := vfscore_fstab s in
  let found := w_find_initrd0 w (trace s) in
  let base := found.2.1 in
  let len := to_ulong found.2.2 in
  let t0 := trace s ++ [EvFindInitrd0 (to_int found.1) base len] in
  let ramfs := EvMount (CStr "") (CStr "/") (CStr "ramfs") 0 CNull in
  let rc1 := to_int (w_mount w t0 (CStr "") (CStr "/") (CStr "ramfs")
                             0 CNull) in
  let t1 := t0 ++ [ramfs rc1] in
  let rc2 := to_int (w_ukcpio_extract w t1 (CStr "/") base len) in
  let t2 := t1 ++ [EvCpioExtract (CStr "/") base len rc2] in
  vfscore_automount_rootfs c w s
  = (if decide (rc1 ≠ 0) then (Ok (-1), State m t1)
     else if decide (rc2 ≠ 0) then (Ok (-1), State m t2)
     else (Ok 0, State m t2)) ∧
  vfscore_automount c w s
  = (if decide (rc1 ≠ 0) then (Ok (-1), State m t1)
     else if decide (rc2 ≠ 0) then (Ok (-1), State m t2)
     else vfscore_automount_fstab_volumes c w (State m t2)).
Proof.
  intros Ha He Hc Hd Hi Hfound m found base len t0 ramfs rc1 t1 rc2 t2.
  assert (Hroot : vfscore_automount_rootfs c w s
                  = do_mount_initrd w base len (lit "/") (State m t0)).
  { unfold vfscore_automount_rootfs. rewrite Ha, He.
    unfold vfscore_automount_rootfs_config. cbn [drv path]. rewrite Hd, Hc.
    unfold lit at 1. cbv beta iota.
    erewrite bind_Ok; [|erewrite bind_Ok by apply load_lit; reflexivity].
    rewrite bool_decide_eq_false_2.
    2: { apply cstring_nonempty_first. intros Hnil.
         unfold initrd_driver in Hi. by rewrite Hnil in Hi. }
    erewrite bind_Ok; [|erewrite bind_Ok by apply strncmp_lit; reflexivity].
    rewrite bool_decide_eq_true_2 by by apply strncmp_initrd.
    rewrite mount_initrd_volume_eq. cbv zeta. cbn [path].
    by rewrite decide_False by lia. }
  pose proof (do_mount_initrd_root w base len (State m t0)) as E.
  cbv zeta in E. cbn [vfscore_fstab trace] in E.
  fold ramfs rc1 t1 rc2 t2 in E. rewrite <- Hroot in E.
  split; [exact E|].
  unfold vfscore_automount, bind. rewrite E.
  by repeat case_decide.
Qed.

Lemma rootfs_initrd_found_witness :
  vfscore_automount_rootfs cfg_initrd world_initrd (boot [])
  = (Ok 0, State [] [EvFindInitrd0 0 0x1000 64;
                     EvMount (CStr "") (CStr "/") (CStr "ramfs") 0 CNull 0;
                     EvCpioExtract (CStr "/") 0x1000 64 0]) ∧
  vfscore_automount cfg_initrd world_initrd (boot [])
  = vfscore_automount_fstab_volumes cfg_initrd world_initrd
      (State [] [EvFindInitrd0 0 0x1000 64;
                 EvMount (CStr "") (CStr "/") (CStr "ramfs") 0 CNull 0;
                 EvCpioExtract (CStr "/") 0x1000 64 0]).
Proof.
  refine (rootfs_initrd_found cfg_initrd world_initrd (boot [])
            "initrd"%string _ _ _ _ _ _);
    [reflexivity | reflexivity | reflexivity | reflexivity | reflexivity
    | vm_compute; discriminate].
Defined.

(** The same build when the mount of the ramfs fails: nothing is extracted,
    the resolver and the orchestrator return -1, and Phase B does not
    run. *)
Example initrd_root_mount_fails :
  let w := {| w_mount := λ _ _ _ _ _ _, -12;
              w_ukcpio_extract := λ _ _ _ _, 0;
              w_find_initrd0 := λ _, (0, (0x1000, 64));
              w_stack_vv := vv_junk |} in
  vfscore_automount cfg_initrd w (boot ["sda0:/mnt:ext4"%string])
  = (Ok (-1),
     State [entry "sda0:/mnt:ext4"]
           [EvFindInitrd0 0 0x1000 64;
            EvMount (CStr "") (CStr "/") (CStr "ramfs") 0 CNull (-12)]).
Proof. vm_compute. done. Qed.

(** ** The entries a run reaches *)

Lemma fstab_volumes_from_prefix c w n i vv s :
  ∃ k, (k ≤ n)%nat ∧
    (∀ j, (i ≤ j < i + k)%nat → is_Some (slot (vfscore_fstab s) j)) ∧
    ∀ j,
      slot (vfscore_fstab (fstab_volumes_from c w n i vv s).2) j
      = if decide (i ≤ j < i + k)%nat
        then nul_seps 5 <$> slot (vfscore_fstab s) j
        else slot (vfscore_fstab s) j.
Proof.
  revert i vv s. induction n as [|n IH]; intros i vv s; simpl.
  { exists O. split; [lia|]. split; [intros; lia|].
    intros j. by rewrite decide_False by lia. }
  destruct (slot (vfscore_fstab s) i) as [b|] eqn:Hs.
  2: { exists O. split; [lia|]. split; [intros; lia|].
       intros j. by rewrite decide_False by lia. }
  pose proof (fstab_volume_mem c w i vv s b Hs) as Hm.
  assert (Hone : ∀ j,
    slot (<[i := Some (nul_seps 5 b)]> (vfscore_fstab s)) j
    = if decide (i ≤ j < i + 1)%nat
      then nul_seps 5 <$> slot (vfscore_fstab s) j
      else slot (vfscore_fstab s) j).
  { intros j. destruct (decide (j = i)) as [->|Hne].
    - rewrite decide_True by lia. rewrite Hs. by eapply slot_insert_eq.
    - rewrite decide_False by lia. by apply slot_insert_ne. }
  assert (Hset1 : ∀ j, (i ≤ j < i + 1)%nat →
                       is_Some (slot (vfscore_fstab s) j)).
  { intros j Hj. replace j with i by lia. by eexists. }
  unfold bind.
  destruct (fstab_volume c w i vv s) as [[[rc vv']| |] s'] eqn:E;
    simpl in Hm.
  2,3: by (exists 1%nat; split; [lia|]; split; [done|]; simpl; rewrite Hm).
  case_decide.
  { exists 1%nat. split; [lia|]. split; [done|]. simpl. by rewrite Hm. }
  destruct (IH (S i) vv' s') as (k & Hk & Hset & Hcut).
  exists (S k). split; [lia|]. split.
  - intros j Hj. destruct (decide (j = i)) as [->|Hne]; [by eexists|].
    specialize (Hset j ltac:(lia)). rewrite Hm in Hset.
    by rewrite slot_insert_ne in Hset.
  - intros j. rewrite Hcut, Hm.
    destruct (decide (j = i)) as [->|Hne].
    + rewrite decide_False by lia. rewrite decide_True by lia.
      rewrite Hs. by eapply slot_insert_eq.
    + rewrite slot_insert_ne by done.
      destruct (decide (S i ≤ j < S i + k)%nat);
        [by rewrite decide_True by lia|by rewrite decide_False by lia].
Qed.

(** X14. The entries that a run of the orchestrator reaches are the first
    [k] slots of the table, for some [k] within its capacity, all of them
    set; each of these entries ends with exactly its first five separators
    turned into terminators, and every other slot is left byte for byte as
    it was. *)
Theorem automount_cuts_a_prefix c w s :
  let m := vfscore_fstab s in
  let m' := vfscore_fstab (vfscore_automount c w s).2 in
  ∃ k, (k ≤ CONFIG_LIBVFSCORE_FSTAB_SIZE c)%nat ∧
    (∀ j, (j < k)%nat → is_Some (slot m j)) ∧
    ∀ j, slot m' j = if decide (j < k)%nat
                     then nul_seps 5 <$> slot m j
                     else slot m j.
Proof.
  intros m m'. subst m m'.
  assert (Hnone : ∃ k, (k ≤ CONFIG_LIBVFSCORE_FSTAB_SIZE c)%nat ∧
    (∀ j, (j < k)%nat → is_Some (slot (vfscore_fstab s) j)) ∧
    ∀ j, slot (vfscore_fstab s) j
         = if decide (j < k)%nat
           then nul_seps 5 <$> slot (vfscore_fstab s) j
           else slot (vfscore_fstab s) j).
  { exists O. split; [lia|]. split; [intros; lia|]. done. }
  unfold vfscore_automount, bind.
  pose proof (mem_const_automount_rootfs c w s) as Hr.
  destruct (vfscore_automount_rootfs c w s) as [[rc| |] s1]; simpl in *;
    [|by rewrite Hr..].
  case_decide; simpl; [by rewrite Hr|].
  unfold vfscore_automount_fstab_volumes.
  destruct (CONFIG_LIBVFSCORE_FSTAB c); simpl; [|by rewrite Hr].
  destruct (fstab_volumes_from_prefix c w (CONFIG_LIBVFSCORE_FSTAB_SIZE c)
              0 (w_stack_vv w) s1) as (k & Hk & Hset & Hcut).
  rewrite Hr in Hset, Hcut.
  exists k. split; [done|]. split.
  - intros j Hj. apply Hset. lia.
  - intros j. rewrite Hcut.
    destruct (decide (j < k)%nat);
      [by rewrite decide_True by lia|by rewrite decide_False by lia].
Qed.

(** ** When a run ends in a failed assertion *)

(** X15. The assertions of the parser test that the mandatory fields are
    there, not that they say anything: parsing an entry ends in a failed
    UK_ASSERT exactly when the entry has fewer than three fields, and an
    entry of three fields or more is parsed even when fields are empty. *)
Theorem fetch_asserts_iff i m tr b vv :
  slot m i = Some b →
  let r := (vfscore_fstab_fetch_volume_args (Some (Ptr (BEnt i) 0)) vv
              (State m tr)).1 in
  (r = AssertFail ↔ (length (entry_fields b) < 3)%nat) ∧
  ((3 ≤ length (entry_fields b))%nat → ∃ vv', r = Ok vv').
Proof.
  intros Hs r. subst r. rewrite (fetch_volume_args_fields i m tr b vv Hs).
  destruct (entry_fields b) as [|a [|p [|d [|f rest]]]]; simpl;
    (split; [split; intros; (done || lia)|]); intros; (lia || by eexists).
Qed.

Lemma fetch_asserts_iff_witness :
  let r e := (vfscore_fstab_fetch_volume_args (Some (Ptr (BEnt 0) 0)) vv_junk
                (boot [e])).1 in
  (r "::"%string = AssertFail
   ↔ (length (entry_fields (list_ascii_of_string "::")) < 3)%nat) ∧
  ((3 ≤ length (entry_fields (list_ascii_of_string "::")))%nat →
   ∃ vv', r "::"%string = Ok vv').
Proof.
  refine (fetch_asserts_iff 0 (entry <$> ["::"%string]) []
            (list_ascii_of_string "::") vv_junk _).
  reflexivity.
Defined.

Lemma turn_mount_returns w (route : bool) vv s :
  is_Some (path vv) →
  ∃ rc s',
    (if route then vfscore_mount_initrd_volume w vv
     else vfscore_mount_volume w vv) s = (Ok rc, s') ∧
    vfscore_fstab s' = vfscore_fstab s.
Proof.
  intros [p Hp]. destruct route.
  - rewrite mount_initrd_volume_eq. cbv zeta.
    case_decide; [by eexists _, _|].
    rewrite Hp, do_mount_initrd_eq. cbv zeta.
    repeat case_decide; by eexists _, _.
  - by eexists _, _.
Qed.

Lemma fstab_volumes_from_returns c w n i vv s :
  (∃ rc s', fstab_volumes_from c w n i vv s = (Ok rc, s')) ∨
  (∃ s' j b,
     fstab_volumes_from c w n i vv s = (AssertFail, s') ∧ (i ≤ j)%nat ∧
     slot (vfscore_fstab s) j = Some b ∧
     (length (entry_fields b) < 3)%nat).
Proof.
  revert i vv s. induction n as [|n IH]; intros i vv s; simpl.
  { left. by eexists _, _. }
  destruct (slot (vfscore_fstab s) i) as [b|] eqn:Hs;
    [|left; by eexists _, _].
  destruct (decide (length (entry_fields b) < 3)%nat) as [Hlt|Hge].
  - right. unfold bind at 1. unfold fstab_volume. unfold bind at 1.
    destruct s as [m tr]. simpl in Hs.
    rewrite (fetch_volume_args_fields i m tr b vv Hs).
    assert (parse_fields i vv (entry_fields b) = AssertFail) as ->.
    { destruct (entry_fields b) as [|? [|? [|? ?]]]; simpl in *;
        done || lia. }
    eexists _, i, b. split; [done|]. split; [lia|]. done.
  - destruct (entry_fields b) as [|a [|p [|d rest]]] eqn:Hf;
      simpl in Hge; try lia.
    destruct s as [m tr]. simpl in Hs.
    destruct (fstab_volume_parsed c w i vv m tr b a p d rest Hs Hf)
      as (vv' & _ & _ & _ & _ & Hpath & Hturn).
    destruct (turn_mount_returns w
                (cpio_and_ramfs c && bool_decide (initrd_driver d)) vv'
                (State (<[i := Some (nul_seps 5 b)]> m) tr) Hpath)
      as (rc & s' & Hmount & Hmem).
    assert (Hv : fstab_volume c w i vv (State m tr) = (Ok (rc, vv'), s')).
    { rewrite Hturn. unfold bind.
      destruct (cpio_and_ramfs c && bool_decide (initrd_driver d));
        by rewrite Hmount. }
    unfold bind. rewrite Hv. case_decide; [left; by eexists _, _|].
    destruct (IH (S i) vv' s')
      as [Hok|(s2 & j & b' & Hrun & Hij & Hj & Hlen)]; [by left|].
    right. exists s2, j, b'. split; [done|]. split; [lia|].
    split; [|done]. simpl in Hmem. rewrite Hmem in Hj.
    by rewrite slot_insert_ne in Hj by lia.
Qed.

Lemma automount_rootfs_returns c w s :
  ∃ rc s', vfscore_automount_rootfs c w s = (Ok rc, s').
Proof.
  unfold vfscore_automount_rootfs.
  destruct (CONFIG_LIBVFSCORE_AUTOMOUNT_ROOTFS c); [|by eexists _, _].
  destruct (CONFIG_LIBVFSCORE_ROOTFS_EINITRD c).
  { unfold vfscore_automount_rootfs_einitrd.
    rewrite do_mount_initrd_root. cbv zeta.
    repeat case_decide; by eexists _, _. }
  unfold vfscore_automount_rootfs_config. cbn [drv path].
  destruct (CONFIG_LIBVFSCORE_ROOTFS c) as [d|]; [|by eexists _, _].
  unfold lit at 1. cbv beta iota.
  erewrite bind_Ok; [|erewrite bind_Ok by apply load_lit; reflexivity].
  destruct (bool_decide _); [by eexists _, _|].
  assert (∃ route,
    (if cpio_and_ramfs c
     then let* r := strncmp (lit d) "initrd" (String.length "initrd") in
          ret (bool_decide (r = 0))
     else ret false) s = (Ok route, s)) as [route Hr].
  { destruct (cpio_and_ramfs c); [|by eexists].
    erewrite bind_Ok by apply strncmp_lit. by eexists. }
  erewrite bind_Ok by exact Hr.
  set (vv := Volume _ _ _ _ _).
  destruct (turn_mount_returns w route vv s) as (rc & s' & Hm & _);
    [by eexists|].
  destruct route; [by eexists _, _|].
  unfold bind. rewrite Hm. by eexists _, _.
Qed.

(** X16. A run of the orchestrator never reads or writes outside an entry
    or a string literal, and it returns a status unless the table holds an
    entry with fewer than three fields: the only other way it ends is the
    failed UK_ASSERT on such an entry. *)
Theorem automount_returns_or_malformed c w s :
  (∃ rc s', vfscore_automount c w s = (Ok rc, s')) ∨
  (∃ s' j b,
     vfscore_automount c w s = (AssertFail, s') ∧
     slot (vfscore_fstab s) j = Some b ∧
     (length (entry_fields b) < 3)%nat).
Proof.
  destruct (automount_rootfs_returns c w s) as (rc & s1 & Hroot).
  pose proof (mem_const_automount_rootfs c w s) as Hmem.
  rewrite Hroot in Hmem. simpl in Hmem.
  unfold vfscore_automount, bind. rewrite Hroot.
  case_decide; [left; by eexists _, _|].
  unfold vfscore_automount_fstab_volumes.
  destruct (CONFIG_LIBVFSCORE_FSTAB c); [|left; by eexists _, _].
  destruct (fstab_volumes_from_returns c w (CONFIG_LIBVFSCORE_FSTAB_SIZE c)
              0 (w_stack_vv w) s1)
    as [Hok|(s2 & j & b & Hrun & _ & Hj & Hlen)]; [by left|].
  right. exists s2, j, b. by rewrite <- Hmem.
Qed.

(** ** Phase B, call by call *)

Lemma mount_initrd_volume_dispatch w vv pp s :
  path vv = Some pp →
  ∃ rc evs,
    vfscore_mount_initrd_volume w vv s
    = (Ok rc, State (vfscore_fstab s) (trace s ++ evs)) ∧
    initrd_dispatch (resolve (vfscore_fstab s) (Some pp)) evs rc.
Proof.
  intros Hpp. rewrite mount_initrd_volume_eq. cbv zeta.
  set (found := w_find_initrd0 w (trace s)).
  set (r0 := to_int found.1).
  set (find := EvFindInitrd0 r0 found.2.1 (to_ulong found.2.2)).
  destruct (decide (r0 < 0)) as [Hr|Hr].
  { exists (-1), [find]. split; [done|].
    exists r0, found.2.1, (to_ulong found.2.2). by left. }
  rewrite Hpp, do_mount_initrd_eq. cbv zeta. cbn [vfscore_fstab trace].
  set (dir := resolve (vfscore_fstab s) (Some pp)).
  set (rc1 := to_int (w_mount _ _ _ _ _ _ _)).
  set (rc2 := to_int (w_ukcpio_extract _ _ _ _ _)).
  destruct (decide (rc1 ≠ 0)) as [H1|H1].
  { exists (-1), [find; EvMount (CStr "") dir (CStr "ramfs") 0 CNull rc1].
    split; [by rewrite <- app_assoc|].
    exists r0, found.2.1, (to_ulong found.2.2). right. left.
    split; [lia|]. by exists rc1. }
  assert (rc1 = 0) as Hz by lia. rewrite Hz.
  exists (if decide (rc2 = 0) then 0 else -1),
    [find; EvMount (CStr "") dir (CStr "ramfs") 0 CNull 0;
     EvCpioExtract dir found.2.1 (to_ulong found.2.2) rc2].
  split.
  - rewrite <- !app_assoc. simpl. by do 2 case_decide.
  - exists r0, found.2.1, (to_ulong found.2.2). right. right.
    split; [lia|]. by exists rc2.
Qed.

(** A turn of the loop for an entry with its three mandatory fields is one
    dispatch of that entry. *)
Lemma fstab_volume_dispatch c w i vv m tr b a p d rest :
  slot m i = Some b → entry_fields b = a :: p :: d :: rest →
  ∃ rc vv' evs,
    fstab_volume c w i vv (State m tr)
    = (Ok (rc, vv'), State (<[i := Some (nul_seps 5 b)]> m) (tr ++ evs)) ∧
    dispatched c a p d evs rc.
Proof.
  intros Hs Hf.
  destruct (fstab_volume_parsed c w i vv m tr b a p d rest Hs Hf)
    as (vv' & _ & Ra & Rp & Rd & [pp Hpp] & Hturn).
  cbv zeta in Hturn. rewrite Hturn.
  set (m' := <[i := Some (nul_seps 5 b)]> m) in *.
  destruct (cpio_and_ramfs c && bool_decide (initrd_driver d)) eqn:Hroute.
  - apply andb_true_iff in Hroute as [Hc Hd].
    apply bool_decide_eq_true_1 in Hd.
    destruct (mount_initrd_volume_dispatch w vv' pp (State m' tr) Hpp)
      as (rc & evs & Hrun & Hdisp).
    exists rc, vv', evs. split.
    + unfold bind. by rewrite Hrun.
    + left. split; [done|]. cbn [vfscore_fstab] in Hdisp.
      by rewrite <- Hpp, Rp in Hdisp.
  - eexists _, vv', _. split.
    + unfold bind, vfscore_mount_volume, mount, ret.
      cbn [vfscore_fstab trace]. rewrite Ra, Rp, Rd. reflexivity.
    + right. split; [|by eexists _, _].
      intros [Hc Hd]. by rewrite Hc, bool_decide_eq_true_2 in Hroute.
Qed.

(** The loop as a list of dispatches: one for each entry it reaches, in
    table order, the last of which alone may have failed. *)
Lemma fstab_volumes_from_runs c w n i vv s :
  ∃ runs : list (list event * Z),
    let res := fstab_volumes_from c w n i vv s in
    trace res.2 = trace s ++ concat runs.*1 ∧
    (length runs ≤ n)%nat ∧
    (∀ j evs rc, runs !! j = Some (evs, rc) →
       ∃ b a p d rest,
         slot (vfscore_fstab s) (i + j) = Some b ∧
         entry_fields b = a :: p :: d :: rest ∧
         dispatched c a p d evs rc) ∧
    (∀ rc, res.1 = Ok rc → rc ≠ 0 → ∃ evs, last runs = Some (evs, rc)) ∧
    (res.1 = Ok 0 →
     length runs = n ∨ slot (vfscore_fstab s) (i + length runs) = None) ∧
    (∀ j evs rc, runs !! j = Some (evs, rc) → rc ≠ 0 →
       length runs = S j ∧ res.1 = Ok rc ∧
       ∀ j', (i + j < j')%nat →
         slot (vfscore_fstab res.2) j' = slot (vfscore_fstab s) j').
Proof.
  revert i vv s. induction n as [|n IH]; intros i vv s.
  { exists []. simpl. rewrite app_nil_r. repeat split; try done.
    - intros rc [= <-] Hrc. done.
    - by left. }
  simpl. destruct (slot (vfscore_fstab s) i) as [b|] eqn:Hs.
  2: { exists []. simpl. rewrite app_nil_r. repeat split; try done.
       - lia.
       - intros rc [= <-] Hrc. done.
       - right. by rewrite Nat.add_0_r. }
  destruct s as [m tr]. cbn [vfscore_fstab trace] in *.
  set (m' := <[i := Some (nul_seps 5 b)]> m).
  assert (Hframe : ∀ j, j ≠ i → slot m' j = slot m j).
  { intros j Hj. by apply slot_insert_ne. }
  destruct (entry_fields b) as [|a [|p [|d rest]]] eqn:Hf.
  1-3: assert (Hv : fstab_volume c w i vv (State m tr)
                    = (AssertFail, State m' tr))
         by (unfold fstab_volume; apply bind_AssertFail;
             by rewrite (fetch_volume_args_fields i m tr b vv Hs), Hf);
    rewrite (bind_AssertFail _ _ _ _ Hv);
    exists []; simpl; rewrite app_nil_r; repeat split; try done; lia.
  destruct (fstab_volume_dispatch c w i vv m tr b a p d rest Hs Hf)
    as (rc & vv' & evs & Hv & Hd).
  fold m' in Hv. rewrite (bind_Ok _ _ _ _ _ Hv). cbv beta iota.
  destruct (decide (rc ≠ 0)) as [Hrc|Hrc].
  - exists [(evs, rc)]. simpl. rewrite app_nil_r.
    split; [done|]. split; [lia|]. split; [|split; [|split]].
    + intros [|j] evs' rc' Hj; simplify_eq/=.
      exists b, a, p, d, rest. by rewrite Nat.add_0_r.
    + intros rc' [= <-] _. by eexists.
    + intros [= ->]. done.
    + intros [|j] evs' rc' Hj Hrc'; simplify_eq/=.
      split; [done|]. split; [done|]. intros j' Hj'. apply Hframe. lia.
  - assert (rc = 0) as -> by lia.
    destruct (IH (S i) vv' (State m' (tr ++ evs)))
      as (runs & H1 & H2 & H3 & H4 & H5 & H6).
    cbv zeta in H1, H4, H5, H6. cbn [vfscore_fstab trace] in *.
    exists ((evs, 0) :: runs). cbv zeta.
    split; [|split; [|split; [|split; [|split]]]].
    + rewrite H1. simpl. by rewrite app_assoc.
    + simpl. lia.
    + intros [|j] evs' rc' Hj.
      * simplify_eq/=. exists b, a, p, d, rest. by rewrite Nat.add_0_r.
      * destruct (H3 j evs' rc' Hj) as (b' & a' & p' & d' & rest' & Hb' & Hr').
        exists b', a', p', d', rest'. split; [|done].
        rewrite <- Hb', <- Hframe by lia. f_equal. lia.
    + intros rc' Hres Hrc'. destruct (H4 rc' Hres Hrc') as [evs' Hl].
      exists evs'. by rewrite last_cons, Hl.
    + intros Hres. destruct (H5 Hres) as [Hn|Hn]; [left; simpl; lia|].
      right. rewrite <- Hn, <- Hframe by (simpl; lia). f_equal. simpl. lia.
    + intros [|j] evs' rc' Hj Hrc'; [by simplify_eq/=|].
      destruct (H6 j evs' rc' Hj Hrc') as (Hlen & Hres & Hkeep).
      split; [simpl; lia|]. split; [done|].
      intros j' Hj'. rewrite Hkeep by lia. apply Hframe. lia.
Qed.

(** C7. Phase B is fail-fast in table order.  Let the root phase return a
    status that lets Phase B run.  Then the calls that the orchestrator
    makes after the root phase are a list of dispatches, one after the
    other: the dispatch number [i] is one dispatch of the entry in slot [i]
    of the table, made of the calls for that entry alone, so that the
    entries are dispatched once each and in table order.  A status other
    than 0 that the orchestrator returns is the status of the last of these
    dispatches, and a return of 0 means that the dispatches went on to the
    first empty slot or to the capacity of the table.  For every index [k]
    whose dispatch has a status [rc] other than 0: the dispatch is the last
    one, so that no call is made for an entry after [k]; the dispatches
    before it all had status 0; the orchestrator returns [rc]; and every
    entry after slot [k] is as it was before the run, not parsed. *)
Theorem fstab_fail_fast c w s0 r s :
  CONFIG_LIBVFSCORE_FSTAB c = true →
  vfscore_automount_rootfs c w s0 = (Ok r, s) → 0 ≤ r →
  let res := vfscore_automount c w s0 in
  ∃ runs : list (list event * Z),
    trace res.2 = trace s ++ concat runs.*1 ∧
    (∀ i evs rc, runs !! i = Some (evs, rc) →
       ∃ b a p d rest,
         slot (vfscore_fstab s0) i = Some b ∧
         entry_fields b = a :: p :: d :: rest ∧
         dispatched c a p d evs rc) ∧
    (∀ rc, res.1 = Ok rc → rc ≠ 0 → ∃ evs, last runs = Some (evs, rc)) ∧
    (res.1 = Ok 0 →
     length runs = CONFIG_LIBVFSCORE_FSTAB_SIZE c
     ∨ slot (vfscore_fstab s0) (length runs) = None) ∧
    ∀ k evs rc, runs !! k = Some (evs, rc) → rc ≠ 0 →
      length runs = S k ∧
      (∀ i evs' rc', (i < k)%nat → runs !! i = Some (evs', rc') → rc' = 0) ∧
      res.1 = Ok rc ∧
      ∀ j, (k < j)%nat →
        slot (vfscore_fstab res.2) j = slot (vfscore_fstab s0) j.
Proof.
  intros Hfstab Hroot Hr res.
  assert (Hres : res = fstab_volumes_from c w (CONFIG_LIBVFSCORE_FSTAB_SIZE c)
                         0 (w_stack_vv w) s).
  { subst res. rewrite (automount_rootfs_nonnegative c w s0 r s Hroot Hr).
    unfold vfscore_automount_fstab_volumes. by rewrite Hfstab. }
  assert (Hm : vfscore_fstab s = vfscore_fstab s0).
  { pose proof (mem_const_automount_rootfs c w s0) as Hm.
    by rewrite Hroot in Hm. }
  destruct (fstab_volumes_from_runs c w (CONFIG_LIBVFSCORE_FSTAB_SIZE c) 0
              (w_stack_vv w) s) as (runs & H1 & H2 & H3 & H4 & H5 & H6).
  cbv zeta in H1, H4, H5, H6. rewrite <- Hres in H1, H4, H5, H6.
  rewrite Hm in H3, H5, H6. simpl in H3, H5, H6.
  exists runs. split; [done|]. split; [done|]. split; [done|].
  split; [done|].
  intros k evs rc Hk Hrc. destruct (H6 k evs rc Hk Hrc) as (Hlen & Hret & Hkeep).
  split; [done|]. split; [|done].
  intros i evs' rc' Hi Hi'. destruct (decide (rc' = 0)) as [|Hrc']; [done|].
  destruct (H6 i evs' rc' Hi' Hrc') as (Hlen' & _). lia.
Qed.

Lemma fstab_fail_fast_witness :
  let s0 := boot ["sda0:/a:ext4"; "sda1:/b:ext4"; "sda2:/c:ext4"]%string in
  let res := vfscore_automount cfg_noroot world_b_fails s0 in
  (res.1 = Ok (-1) ∧
   trace res.2
   = [EvMount (CStr "sda0") (CStr "/a") (CStr "ext4") 0 CNull 0;
      EvMount (CStr "sda1") (CStr "/b") (CStr "ext4") 0 CNull (-1)] ∧
   slot (vfscore_fstab res.2) 2 = entry "sda2:/c:ext4") ∧
  ∃ runs : list (list event * Z),
    trace res.2 = trace s0 ++ concat runs.*1 ∧
    (∀ i evs rc, runs !! i = Some (evs, rc) →
       ∃ b a p d rest,
         slot (vfscore_fstab s0) i = Some b ∧
         entry_fields b = a :: p :: d :: rest ∧
         dispatched cfg_noroot a p d evs rc) ∧
    (∀ rc, res.1 = Ok rc → rc ≠ 0 → ∃ evs, last runs = Some (evs, rc)) ∧
    (res.1 = Ok 0 →
     length runs = 4%nat ∨ slot (vfscore_fstab s0) (length runs) = None) ∧
    ∀ k evs rc, runs !! k = Some (evs, rc) → rc ≠ 0 →
      length runs = S k ∧
      (∀ i evs' rc', (i < k)%nat → runs !! i = Some (evs', rc') → rc' = 0) ∧
      res.1 = Ok rc ∧
      ∀ j, (k < j)%nat →
        slot (vfscore_fstab res.2) j = slot (vfscore_fstab s0) j.
Proof.
  intros s0 res. split; [vm_compute; done|].
  refine (fstab_fail_fast cfg_noroot world_b_fails s0 0 s0 _ _ _);
    [reflexivity | reflexivity | lia].
Defined.
